(** * ldap-proxy: the decision layer of [pkg/proxy.go]

    A shallow embedding of the [LdapProxy] handlers (Connect, Disconnect,
    Bind, Search, Whoami and the statically denied operations) together
    with the properties of the bind protocol, of the search aggregation and
    of the session state that the handlers maintain.

    Go values are modelled as follows.
    - [*session] is a location in a store of session cells; the handlers
      run in a state monad over that store and a trace of the effects they
      perform (log lines, metric observations, backend calls, stores to a
      session cell).  A failing dereference is a runtime panic.
    - [map[string]Backend] is a [gmap string Backend]; every [range] over
      it receives the order in which the runtime visits the entries, an
      arbitrary permutation of the entries of the map.
    - [string] is [string] (a sequence of bytes), [[]byte] is [list byte],
      and the conversions [string(b)] and [[]byte(s)] are the byte casts
      of the standard library. *)

From Stdlib Require Import Strings.Byte.
From stdpp Require Import base option list gmap strings fin_maps pretty.

Local Open Scope string_scope.
Local Open Scope list_scope.

(** ** Types of the ldap library used by the handlers *)

(** The result codes the proxy answers with. *)
Inductive ResultCode :=
| ResultSuccess
| ResultInvalidCredentials
| ResultInsufficientAccessRights
| ResultUnwillingToPerform.

#[global] Instance ResultCode_eq_dec : EqDecision ResultCode.
Proof. solve_decision. Defined.

(** [error] values: the package-level [errInvalidSessionType] and whatever
    a backend reports. *)
Inductive error :=
| errInvalidSessionType
| errBackend (msg : string).

#[global] Instance error_eq_dec : EqDecision error.
Proof. solve_decision. Defined.

(** [ldap.BaseResponse], restricted to the fields the proxy writes. *)
Record BaseResponse := mkBaseResponse {
  Code : ResultCode;
  MatchedDN : string
}.

(** [ldap.BindRequest]. *)
Record BindRequest := mkBindRequest {
  breq_DN : string;
  breq_Password : list byte
}.

(** [ldap.SearchRequest]; the filter is opaque to the proxy and is handed
    to the backends as it is. *)
Record SearchRequest := mkSearchRequest {
  sreq_BaseDN : string;
  sreq_Filter : string
}.

(** [ldap.SearchResult]. *)
Record SearchResult := mkSearchResult {
  sr_DN : string;
  sr_Attributes : gmap string (list (list byte))
}.

(** [ldap.SearchResponse]. *)
Record SearchResponse := mkSearchResponse {
  sres_Base : BaseResponse;
  sres_Results : list SearchResult
}.

(** ** Backends *)

(** Modelled from the spec: the [User] record that backends produce, whose
    declaration is outside [proxy.go] ("DN: string, Attributes: mapping
    from attribute name to ordered sequence of string values"). *)
Record User := mkUser {
  user_DN : string;
  user_Attributes : gmap string (list string)
}.

(** Modelled from the spec: the [Backend] interface, whose declaration is
    outside [proxy.go] ("Name() -> string, Authenticate(identity,
    credential) -> bool, GetUsers(filter) -> sequence of User, fails with
    BackendError").  [GetUsers] returns the pair [users, err] of the Go
    call site. *)
Record Backend := mkBackend {
  Name : string;
  Authenticate : string → string → bool;
  GetUsers : string → list User * option error
}.

(** ** Sessions, contexts and the world the handlers run in *)

Record session := mkSession { dn : string }.

Definition loc := nat.

(** An [ldap.Context] is an interface value: either a [*session] or a
    value of some other dynamic type.  A [*session] that does not point to
    a live cell (the nil pointer) still passes the type assertion. *)
Inductive Context :=
| CtxSession (p : loc)
| CtxForeign (v : string).

(** The effects a handler performs, in program order. *)
Inductive Event :=
| EvLog (line : string)                       (* log.Printf *)
| EvDebug (line : string)                     (* log.Debugf *)
| EvCounter (action : string)                 (* requestsTotal{action}.Inc() *)
| EvDuration (action backend : string)        (* backendActionDuration{action,backend}.Observe *)
| EvAuthenticate (backend d password : string) (* backend.Authenticate(d, password) *)
| EvGetUsers (backend filter : string)        (* backend.GetUsers(filter) *)
| EvStoreDN (p : loc) (d : string).           (* sess.dn = d *)

Record World := mkWorld {
  sessions : gmap loc session;
  trace : list Event
}.

Inductive Outcome (A : Type) :=
| Ret (a : A)
| Panic.
Arguments Ret {A} a.
Arguments Panic {A}.

(** State over [World], with panics. *)
Definition M (A : Type) : Type := World → Outcome A * World.

#[global] Instance M_ret : MRet M := λ A a w, (Ret a, w).
#[global] Instance M_bind : MBind M := λ A B f m w,
  match m w with
  | (Ret a, w') => f a w'
  | (Panic, w') => (Panic, w')
  end.

Definition emit (e : Event) : M unit :=
  λ w, (Ret tt, mkWorld (sessions w) (trace w ++ [e])).

(** [sess.dn] read through the pointer. *)
Definition load_dn (p : loc) : M string :=
  λ w, match sessions w !! p with
       | Some s => (Ret (dn s), w)
       | None => (Panic, w)
       end.

(** [sess.dn = d] written through the pointer. *)
Definition store_dn (p : loc) (d : string) : M unit :=
  λ w, match sessions w !! p with
       | Some _ => (Ret tt, mkWorld (<[p := mkSession d]> (sessions w))
                                    (trace w ++ [EvStoreDN p d]))
       | None => (Panic, w)
       end.

(** [&session{}]: a fresh cell holding the zero value. *)
Definition new_session : M loc :=
  λ w, let p := fresh (dom (sessions w)) in
       (Ret p, mkWorld (<[p := mkSession ""]> (sessions w)) (trace w)).

Definition call_Authenticate (backend : Backend) (d password : string) : M bool :=
  emit (EvAuthenticate (Name backend) d password);;
  mret (Authenticate backend d password).

Definition call_GetUsers (backend : Backend) (filter : string)
  : M (list User * option error) :=
  emit (EvGetUsers (Name backend) filter);;
  mret (GetUsers backend filter).

(** ** The session's log helpers *)

Definition LogAuth (d : string) (successful : bool) : M unit :=
  if successful
  then emit (EvLog (d +:+ ": Authentication successful"))
  else emit (EvLog (d +:+ ": Authentication failed")).

Definition Println (p : loc) (v : string) : M unit :=
  d ← load_dn p;
  emit (EvLog (d +:+ ": " +:+ v)).

Definition Printf (p : loc) (formatted : string) : M unit :=
  d ← load_dn p;
  emit (EvLog (d +:+ ": " +:+ formatted)).

(** ** The proxy *)

Record LdapProxy := mkLdapProxy {
  backends : gmap string Backend
}.

Definition NewLdapProxy : LdapProxy := mkLdapProxy ∅.

(** [for _, bkend := range backends] of [AddBackend]. *)
Definition AddBackend_range (registry : gmap string Backend)
    (bs : list Backend) : gmap string Backend :=
  foldl (λ m bkend, <[Name bkend := bkend]> m) registry bs.

Definition AddBackend (proxy : LdapProxy) (bs : list Backend) : M LdapProxy :=
  emit (EvLog ("Adding " +:+ pretty (length bs) +:+ " backends"));;
  mret (mkLdapProxy (AddBackend_range (backends proxy) bs)).

(** The orders in which a [range] over the registry may visit it. *)
Definition range_order (proxy : LdapProxy) (order : list Backend) : Prop :=
  order ≡ₚ (map_to_list (backends proxy)).*2.

Definition Connect (remoteAddr : string)
  : M (option Context * option error) :=
  emit (EvLog ("New session from " +:+ remoteAddr));;
  emit (EvCounter "connect");;
  p ← new_session;
  mret (Some (CtxSession p), None).

Definition Disconnect (ctx : Context) : M unit :=
  match ctx with
  | CtxSession p =>
      emit (EvCounter "disconnect");;
      Println p "Session ended"
  | CtxForeign _ => mret tt
  end.

(** The [range] loop of [Bind]; [res] is the response built so far. *)
Fixpoint Bind_range (p : loc) (req : BindRequest) (res : BaseResponse)
    (order : list Backend) : M BaseResponse :=
  match order with
  | [] => mret res
  | backend :: rest =>
      authenticated ←
        call_Authenticate backend (breq_DN req)
          (String.string_of_list_byte (breq_Password req));
      emit (EvDuration "auth" (Name backend));;
      if authenticated : bool then
        store_dn p (breq_DN req);;
        let res := mkBaseResponse ResultSuccess (MatchedDN res) in
        let res := mkBaseResponse (Code res) (breq_DN req) in
        mret res                                    (* break *)
      else Bind_range p req res rest
  end.

Definition Bind (order : list Backend) (ctx : Context) (req : BindRequest)
  : M (option BaseResponse * option error) :=
  emit (EvDebug ("bind as " +:+ breq_DN req));;
  match ctx with
  | CtxSession p =>
      emit (EvCounter "bind");;
      let res := mkBaseResponse ResultInvalidCredentials "" in
      store_dn p "";;
      res ← Bind_range p req res order;
      LogAuth (breq_DN req) (bool_decide (Code res = ResultSuccess));;
      mret (Some res, None)
  | CtxForeign _ => mret (None, Some errInvalidSessionType)
  end.

(** ** The statically denied operations *)

Section StaticDeny.
(** The request types of the ldap library; the handlers never look at
    them, nor at the context. *)
Context {AddRequest DeleteRequest ExtendedRequest_t ModifyRequest
         ModifyDNRequest PasswordModifyRequest : Type}.

Definition Add (ctx : Context) (req : AddRequest)
  : M (option BaseResponse * option error) :=
  emit (EvCounter "add");;
  mret (Some (mkBaseResponse ResultUnwillingToPerform ""), None).

Definition Delete (ctx : Context) (req : DeleteRequest)
  : M (option BaseResponse * option error) :=
  emit (EvCounter "delete");;
  mret (Some (mkBaseResponse ResultUnwillingToPerform ""), None).

Definition ExtendedRequest (ctx : Context) (req : ExtendedRequest_t)
  : M (option BaseResponse * option error) :=
  emit (EvCounter "extended");;
  mret (Some (mkBaseResponse ResultUnwillingToPerform ""), None).

Definition Modify (ctx : Context) (req : ModifyRequest)
  : M (option BaseResponse * option error) :=
  emit (EvCounter "modify");;
  mret (Some (mkBaseResponse ResultUnwillingToPerform ""), None).

Definition ModifyDN (ctx : Context) (req : ModifyDNRequest)
  : M (option BaseResponse * option error) :=
  emit (EvCounter "modify_dn");;
  mret (Some (mkBaseResponse ResultUnwillingToPerform ""), None).

Definition PasswordModify (ctx : Context) (req : PasswordModifyRequest)
  : M (list byte * option error) :=
  emit (EvCounter "modify_password");;
  mret ([], None).
End StaticDeny.

(** ** Search *)

(** [for _, value := range values]: the values of one attribute. *)
Definition Search_values_range (values : list string) : list (list byte) :=
  foldl (λ convertedValues value,
           convertedValues ++ [String.list_byte_of_string value])
        [] values.

(** [for key, values := range user.Attributes], over the entries in the
    order [visit] in which the runtime hands them out. *)
Definition Search_attributes_range (visit : list (string * list string))
  : gmap string (list (list byte)) :=
  foldl (λ attrs kv, <[kv.1 := Search_values_range kv.2]> attrs) ∅ visit.

(** [for _, user := range users].  The attributes of each user are visited
    in the order of [map_to_list]; [Search_attributes_range_any_order]
    below shows that any other order gives the same map. *)
Definition Search_users_range (searchResults : list SearchResult)
    (users : list User) : list SearchResult :=
  foldl (λ results user,
           results ++
           [mkSearchResult (user_DN user)
              (Search_attributes_range (map_to_list (user_Attributes user)))])
        searchResults users.

(** [for _, backend := range serverBackend.backends]; [inr err] is the
    early [return nil, err]. *)
Fixpoint Search_range (req : SearchRequest) (searchResults : list SearchResult)
    (order : list Backend) : M (list SearchResult + error) :=
  match order with
  | [] => mret (inl searchResults)
  | backend :: rest =>
      r ← call_GetUsers backend (sreq_Filter req);
      emit (EvDuration "search" (Name backend));;
      match r.2 with
      | Some err => mret (inr err)
      | None => Search_range req (Search_users_range searchResults r.1) rest
      end
  end.

Definition Search (order : list Backend) (ctx : Context) (req : SearchRequest)
  : M (option SearchResponse * option error) :=
  match ctx with
  | CtxSession p =>
      emit (EvCounter "search");;
      d ← load_dn p;
      if decide (d = "") then
        mret (Some (mkSearchResponse
                      (mkBaseResponse ResultInsufficientAccessRights "") []),
              None)
      else
        Printf p ("Searching dn: '" +:+ sreq_BaseDN req +:+
                  "', filter: '" +:+ sreq_Filter req +:+ "'");;
        r ← Search_range req [] order;
        match r with
        | inr err => mret (None, Some err)
        | inl searchResults =>
            mret (Some (mkSearchResponse
                          (mkBaseResponse ResultSuccess "") searchResults),
                  None)
        end
  | CtxForeign _ => mret (None, Some errInvalidSessionType)
  end.

Definition Whoami (ctx : Context) : M (string * option error) :=
  match ctx with
  | CtxSession p =>
      emit (EvCounter "whoami");;
      Println p "Who am I";;
      d ← load_dn p;
      mret (d, None)
  | CtxForeign _ => mret ("", Some errInvalidSessionType)
  end.

(** ** Observations on worlds and traces *)

(** A computation that returns [a], leaves the session store as it was
    and performs exactly the effects [evs]. *)
Definition performs {A} (m : M A) (w : World) (a : A) (evs : list Event) : Prop :=
  m w = (Ret a, mkWorld (sessions w) (trace w ++ evs)).

(** The identity bound to the session at [p]. *)
Definition identity (w : World) (p : loc) : option string :=
  dn <$> sessions w !! p.

Definition is_backend_call (e : Event) : bool :=
  match e with
  | EvAuthenticate _ _ _ | EvGetUsers _ _ => true
  | _ => false
  end.

(** The backends whose [Authenticate] was called, in call order. *)
Definition consulted (evs : list Event) : list string :=
  omap (λ e, match e with EvAuthenticate b _ _ => Some b | _ => None end) evs.

(** The backends whose [GetUsers] was called, in call order. *)
Definition queried (evs : list Event) : list string :=
  omap (λ e, match e with EvGetUsers b _ => Some b | _ => None end) evs.

(** The effects of one loop iteration of [Bind] and of [Search]. *)
Definition auth_events (d password : string) (bs : list Backend) : list Event :=
  bs ≫= λ b, [EvAuthenticate (Name b) d password; EvDuration "auth" (Name b)].

Definition search_events (filter : string) (bs : list Backend) : list Event :=
  bs ≫= λ b, [EvGetUsers (Name b) filter; EvDuration "search" (Name b)].

(** ** The aggregation as the specification words it *)

(** The wire form of a user, following the specification: "string values
    -> byte sequences, attribute keys preserved verbatim".  This is not
    the code of [Search], whose loops are [Search_users_range],
    [Search_attributes_range] and [Search_values_range] above; the two
    are compared below. *)
Definition wire_user (u : User) : SearchResult :=
  mkSearchResult (user_DN u)
    (fmap (M := list) String.list_byte_of_string <$> user_Attributes u).

(** The result list, following the specification: "one produced per User,
    order of backends then order within each backend's result set; no
    deduplication or sorting across backends". *)
Definition aggregate (filter : string) (order : list Backend) : list SearchResult :=
  order ≫= λ b, wire_user <$> (GetUsers b filter).1.

(** Whether a backend accepts the credentials of a bind request. *)
Definition accepts (req : BindRequest) (b : Backend) : bool :=
  Authenticate b (breq_DN req)
    (String.string_of_list_byte (breq_Password req)).

(** What [Bind] does on a live session before it enters its loop. *)
Definition bind_prologue (p : loc) (req : BindRequest) : list Event :=
  [EvDebug ("bind as " +:+ breq_DN req); EvCounter "bind"; EvStoreDN p ""].

Definition no_backend_call (evs : list Event) : Prop :=
  Forall (λ e, is_backend_call e = false) evs.

(** A handler that answers [a] with a nil error from every world, without
    touching a session and without calling a backend. *)
Definition answers {A} (m : M (A * option error)) (a : A) : Prop :=
  ∀ w, ∃ evs, performs m w (a, None) evs ∧ no_backend_call evs.

(** Whether a backend answers a search without an error. *)
Definition answers_users (filter : string) (b : Backend) : Prop :=
  (GetUsers b filter).2 = None.

(** What [Search] does on an authenticated session before it enters its
    loop. *)
Definition search_prologue (identity : string) (req : SearchRequest)
  : list Event :=
  [EvCounter "search";
   EvLog (identity +:+ ": " +:+
          ("Searching dn: '" +:+ sreq_BaseDN req +:+
           "', filter: '" +:+ sreq_Filter req +:+ "'"))].

(** The responses of [Search]. *)
Definition search_denied : SearchResponse :=
  mkSearchResponse (mkBaseResponse ResultInsufficientAccessRights "") [].

Definition search_success (results : list SearchResult) : SearchResponse :=
  mkSearchResponse (mkBaseResponse ResultSuccess "") results.

(** A computation that leaves every session cell as it found it, whatever
    its outcome. *)
Definition frames {A} (m : M A) : Prop :=
  ∀ w, sessions (m w).2 = sessions w.

(** The fixed response of the statically denied operations. *)
Definition unwilling : BaseResponse :=
  mkBaseResponse ResultUnwillingToPerform "".

(** ** A sample deployment *)

Definition admin_user : User :=
  mkUser "cn=admin,dc=x"
    (<["cn" := ["admin"]]> (<["mail" := ["admin@x"; "root@x"]]> ∅)).

Definition bob_user : User :=
  mkUser "cn=bob,dc=x" (<["cn" := ["bob"]]> ∅).

Definition eve_user : User :=
  mkUser "cn=eve,dc=x" (<["cn" := ["eve"]]> ∅).

Definition ldapBackend : Backend :=
  mkBackend "ldap"
    (λ d pw, String.eqb d "cn=admin,dc=x" && String.eqb pw "secret")
    (λ _, ([admin_user], None)).

Definition fileBackend : Backend :=
  mkBackend "file"
    (λ d pw, String.eqb d "cn=bob,dc=x" && String.eqb pw "hunter2")
    (λ _, ([bob_user; eve_user], None)).

(** A backend that lets anonymous clients in. *)
Definition guestBackend : Backend :=
  mkBackend "guest" (λ d _, String.eqb d "") (λ _, ([], None)).

(** A backend whose directory cannot be reached. *)
Definition brokenBackend : Backend :=
  mkBackend "broken" (λ _ _, false)
    (λ _, ([], Some (errBackend "connection refused"))).

Definition sample_proxy : LdapProxy :=
  mkLdapProxy (AddBackend_range ∅ [ldapBackend; fileBackend; guestBackend]).

Definition broken_proxy : LdapProxy :=
  mkLdapProxy (AddBackend_range ∅ [fileBackend; brokenBackend; ldapBackend]).

(** One connection, bound as the administrator. *)
Definition sample_world : World :=
  mkWorld (<[0 := mkSession "cn=admin,dc=x"]> ∅) [].

(** One connection that has not bound yet. *)
Definition fresh_world : World :=
  mkWorld (<[0 := mkSession ""]> ∅) [].

Definition admin_bind : BindRequest :=
  mkBindRequest "cn=admin,dc=x" (String.list_byte_of_string "secret").

Definition wrong_bind : BindRequest :=
  mkBindRequest "cn=admin,dc=x" (String.list_byte_of_string "guess").

Definition anonymous_bind : BindRequest := mkBindRequest "" [].

Definition everyone : SearchRequest := mkSearchRequest "dc=x" "(objectClass=*)".

(** Two orders in which the runtime may visit the sample registries. *)
Definition sample_order : list Backend :=
  [fileBackend; ldapBackend; guestBackend].

Definition broken_order : list Backend :=
  [ldapBackend; brokenBackend; fileBackend].

(** ** Further observations *)

(** The registry invariant of [AddBackend]: every backend is stored under
    its own name. *)
Definition keyed_by_name (registry : gmap string Backend) : Prop :=
  map_Forall (λ name b, Name b = name) registry.

(** The backends a duration was observed for under [action], in order. *)
Definition observed (action : string) (evs : list Event) : list string :=
  omap (λ e, match e with
             | EvDuration a b => if decide (a = action) then Some b else None
             | _ => None
             end) evs.

(** The actions the request counter was incremented for, in order. *)
Definition counted (evs : list Event) : list string :=
  omap (λ e, match e with EvCounter a => Some a | _ => None end) evs.

(** The lines written with [log.Printf], in order. *)
Definition logged (evs : list Event) : list string :=
  omap (λ e, match e with EvLog line => Some line | _ => None end) evs.

Definition is_log (e : Event) : bool :=
  match e with
  | EvLog _ | EvDebug _ => true
  | _ => false
  end.

(** The effects other than log lines. *)
Definition without_logs (evs : list Event) : list Event :=
  filter (λ e, is_log e = false) evs.

(** A computation that leaves alone every session cell but the one at
    [p], whatever its outcome. *)
Definition frames_except {A} (p : loc) (m : M A) : Prop :=
  ∀ w q, q ≠ p → sessions (m w).2 !! q = sessions w !! q.

(** Two connections: the administrator and a client that has not bound. *)
Definition two_sessions : World :=
  mkWorld (<[0 := mkSession "cn=admin,dc=x"]> (<[1 := mkSession ""]> ∅)) [].

(** A second backend that claims the name of the file backend. *)
Definition shadowBackend : Backend :=
  mkBackend "file" (λ _ _, false) (λ _, ([], None)).

(** How [Bind] ends on a live session, given the response it returns. *)
Definition bind_epilogue (p : loc) (req : BindRequest) (res : BaseResponse)
  : list Event :=
  if decide (Code res = ResultSuccess)
  then [EvStoreDN p (breq_DN req);
        EvLog (breq_DN req +:+ ": Authentication successful")]
  else [EvLog (breq_DN req +:+ ": Authentication failed")].

(** Reading a search result back: the bytes of every value cast to a
    string again. *)
Definition unwire (r : SearchResult) : User :=
  mkUser (sr_DN r)
    (fmap (M := list) String.string_of_list_byte <$> sr_Attributes r).

(** A visiting order of the administrator's attributes. *)
Definition admin_visit : list (string * list string) :=
  [("cn", ["admin"]); ("mail", ["admin@x"; "root@x"])].

Definition admin_visit' : list (string * list string) :=
  [("mail", ["admin@x"; "root@x"]); ("cn", ["admin"])].

(** The same search under another base DN. *)
Definition everyone_elsewhere : SearchRequest :=
  mkSearchRequest "ou=people,dc=y" "(objectClass=*)".

(** One connection, bound as bob, on another session cell. *)
Definition bob_world : World :=
  mkWorld (<[3 := mkSession "cn=bob,dc=x"]> ∅) [EvCounter "connect"].

(** * Properties *)

(** ** Stepping the monad *)

Lemma run_bind {A B} (m : M A) (k : A → M B) (w : World) :
  (m ≫= k) w = match m w with
               | (Ret a, w') => k a w'
               | (Panic, w') => (Panic, w')
               end.
Proof. reflexivity. Qed.

Lemma run_ret {A} (a : A) (w : World) : mret (M := M) a w = (Ret a, w).
Proof. reflexivity. Qed.

Lemma run_emit (e : Event) (w : World) :
  emit e w = (Ret tt, mkWorld (sessions w) (trace w ++ [e])).
Proof. reflexivity. Qed.

Lemma run_load_dn p s w :
  sessions w !! p = Some s → load_dn p w = (Ret (dn s), w).
Proof. intros Hp. unfold load_dn. by rewrite Hp. Qed.

Lemma run_store_dn p d s w :
  sessions w !! p = Some s →
  store_dn p d w = (Ret tt, mkWorld (<[p := mkSession d]> (sessions w))
                                    (trace w ++ [EvStoreDN p d])).
Proof. intros Hp. unfold store_dn. by rewrite Hp. Qed.

Ltac mstep :=
  repeat first
    [ rewrite run_bind
    | rewrite run_ret
    | rewrite run_emit
    | progress cbn [sessions trace fst snd] ].

(** ** The registry and its visiting orders *)

Lemma range_order_elem_of proxy order b :
  range_order proxy order →
  b ∈ order ↔ ∃ name, backends proxy !! name = Some b.
Proof.
  unfold range_order. intros ->. rewrite list_elem_of_fmap. split.
  - intros [[name b'] [-> Hin]]. exists name. by apply elem_of_map_to_list.
  - intros [name Hname]. exists (name, b). split; [done|].
    by apply elem_of_map_to_list.
Qed.

Lemma range_order_empty proxy order :
  range_order proxy order → backends proxy = ∅ → order = [].
Proof.
  unfold range_order. intros Hperm Hempty.
  rewrite Hempty, map_to_list_empty in Hperm.
  by apply Permutation_nil_r.
Qed.

(** A list with an element satisfying [f] splits at the first such
    element. *)
Lemma first_true_split {A} (f : A → bool) (l : list A) :
  (∃ x, x ∈ l ∧ f x = true) →
  ∃ l1 x l2, l = l1 ++ x :: l2 ∧ Forall (λ y, f y = false) l1 ∧ f x = true.
Proof.
  induction l as [|a l IH]; intros (x & Hin & Hx).
  - by apply elem_of_nil in Hin.
  - destruct (f a) eqn:Ha.
    + by exists [], a, l.
    + destruct IH as (l1 & y & l2 & -> & Hl1 & Hy).
      { apply elem_of_cons in Hin as [->|Hin]; [congruence|eauto]. }
      exists (a :: l1), y, l2. split_and!; [done| |done].
      by constructor.
Qed.

(** ** Connect and dangling sessions *)

(** [Connect] hands out a session that did not exist before, with the
    empty identity, and leaves the other sessions alone. *)
Lemma Connect_new_session remoteAddr w :
  ∃ p w',
    Connect remoteAddr w = (Ret (Some (CtxSession p), None), w') ∧
    sessions w !! p = None ∧
    identity w' p = Some "" ∧
    ∀ q, q ≠ p → identity w' q = identity w q.
Proof.
  eexists _, _. split; [reflexivity|]. cbn. split_and!.
  - apply not_elem_of_dom, is_fresh.
  - unfold identity. cbn. by rewrite lookup_insert_eq.
  - intros q Hq. unfold identity. cbn. by rewrite lookup_insert_ne.
Qed.

(** A [*session] context without a live cell behind it passes the type
    assertion of [Bind], which then panics on its first store. *)
Lemma Bind_dangling_session_panics order p req w :
  sessions w !! p = None →
  (Bind order (CtxSession p) req w).1 = Panic.
Proof.
  intros Hp. unfold Bind. mstep. unfold store_dn. cbn. by rewrite Hp.
Qed.

(** ** The loop of [Bind] *)

Section BindLoop.
Variables (p : loc) (req : BindRequest).

(** As long as every backend declines, the loop asks each of them in
    turn and leaves the response and the session alone. *)
Lemma Bind_range_miss res bs w :
  Forall (λ b, accepts req b = false) bs →
  performs (Bind_range p req res bs) w res
    (auth_events (breq_DN req)
       (String.string_of_list_byte (breq_Password req)) bs).
Proof.
  unfold performs. revert w. induction bs as [|b bs IH]; intros w Hbs.
  - cbn. by rewrite app_nil_r; destruct w.
  - apply Forall_cons in Hbs as [Hb Hbs]. unfold accepts in Hb.
    cbn [Bind_range]. unfold call_Authenticate. mstep.
    rewrite Hb, IH by done. mstep.
    by rewrite <-!app_assoc.
Qed.

(** The first backend that accepts ends the loop: the identity is
    stored, the response is the success response, and the backends
    after it are not asked. *)
Lemma Bind_range_hit res tried winner rest s w :
  sessions w !! p = Some s →
  Forall (λ b, accepts req b = false) tried →
  accepts req winner = true →
  Bind_range p req res (tried ++ winner :: rest) w =
    (Ret (mkBaseResponse ResultSuccess (breq_DN req)),
     mkWorld (<[p := mkSession (breq_DN req)]> (sessions w))
       (trace w
          ++ auth_events (breq_DN req)
               (String.string_of_list_byte (breq_Password req))
               (tried ++ [winner])
          ++ [EvStoreDN p (breq_DN req)])).
Proof.
  intros Hp. revert w Hp.
  induction tried as [|b bs IH]; intros w Hp Hbs Hwin; unfold accepts in *.
  - cbn [app Bind_range]. unfold call_Authenticate. mstep.
    rewrite Hwin. mstep.
    erewrite run_store_dn by done. cbn. by rewrite <-!app_assoc.
  - apply Forall_cons in Hbs as [Hb Hbs].
    rewrite <-app_comm_cons. cbn [Bind_range].
    unfold call_Authenticate. mstep.
    rewrite Hb. rewrite (IH _) by done. cbn.
    by rewrite <-!app_assoc.
Qed.
End BindLoop.

(** ** Complete runs of [Bind] on a live session *)

Lemma Bind_run_hit tried winner rest p s req w :
  sessions w !! p = Some s →
  Forall (λ b, accepts req b = false) tried →
  accepts req winner = true →
  Bind (tried ++ winner :: rest) (CtxSession p) req w =
    (Ret (Some (mkBaseResponse ResultSuccess (breq_DN req)), None),
     mkWorld (<[p := mkSession (breq_DN req)]> (sessions w))
       (trace w ++ bind_prologue p req
          ++ auth_events (breq_DN req)
               (String.string_of_list_byte (breq_Password req))
               (tried ++ [winner])
          ++ [EvStoreDN p (breq_DN req);
              EvLog (breq_DN req +:+ ": Authentication successful")])).
Proof.
  intros Hp Htried Hwin. unfold Bind. mstep.
  erewrite run_store_dn by done. mstep.
  erewrite Bind_range_hit; [|cbn; apply lookup_insert_eq|done..].
  mstep. rewrite bool_decide_eq_true_2 by done.
  unfold LogAuth. mstep. rewrite insert_insert_eq.
  unfold bind_prologue. by rewrite <-!app_assoc.
Qed.

Lemma Bind_run_miss order p s req w :
  sessions w !! p = Some s →
  Forall (λ b, accepts req b = false) order →
  Bind order (CtxSession p) req w =
    (Ret (Some (mkBaseResponse ResultInvalidCredentials ""), None),
     mkWorld (<[p := mkSession ""]> (sessions w))
       (trace w ++ bind_prologue p req
          ++ auth_events (breq_DN req)
               (String.string_of_list_byte (breq_Password req)) order
          ++ [EvLog (breq_DN req +:+ ": Authentication failed")])).
Proof.
  intros Hp Hmiss. unfold Bind. mstep.
  erewrite run_store_dn by done. mstep.
  rewrite Bind_range_miss by done. mstep.
  rewrite bool_decide_eq_false_2 by done.
  unfold LogAuth. mstep.
  unfold bind_prologue. by rewrite <-!app_assoc.
Qed.

(** Either some backend accepts, and the order splits at the first one,
    or all of them decline. *)
Lemma accepts_split_or_miss req (order : list Backend) :
  (∃ tried winner rest,
      order = tried ++ winner :: rest ∧
      Forall (λ b, accepts req b = false) tried ∧
      accepts req winner = true)
  ∨ Forall (λ b, accepts req b = false) order.
Proof.
  destruct (decide (Exists (λ b, accepts req b = true) order)) as [Hex|Hno].
  - left. apply first_true_split. apply Exists_exists in Hex. naive_solver.
  - right. apply Forall_forall. intros b Hb.
    destruct (accepts req b) eqn:Hacc; [|done].
    destruct Hno. apply Exists_exists. eauto.
Qed.

Lemma consulted_app evs1 evs2 :
  consulted (evs1 ++ evs2) = consulted evs1 ++ consulted evs2.
Proof. apply omap_app. Qed.

Lemma consulted_auth_events d password bs :
  consulted (auth_events d password bs) = Name <$> bs.
Proof.
  induction bs as [|b bs IH]; [done|].
  cbn. f_equal. exact IH.
Qed.

Lemma queried_app evs1 evs2 :
  queried (evs1 ++ evs2) = queried evs1 ++ queried evs2.
Proof. apply omap_app. Qed.

Lemma queried_search_events filter bs :
  queried (search_events filter bs) = Name <$> bs.
Proof.
  induction bs as [|b bs IH]; [done|].
  cbn. f_equal. exact IH.
Qed.

Lemma identity_insert w p d evs :
  identity (mkWorld (<[p := mkSession d]> (sessions w)) evs) p = Some d.
Proof. unfold identity. cbn. by rewrite lookup_insert_eq. Qed.

(** ** Bind: the authentication protocol *)

Ltac solve_range_order :=
  unfold range_order; vm_compute; solve_Permutation.

(** C1.  Whenever some registered backend accepts [(dn, credential)], a
    bind on a live session answers Success with MatchedDN [dn] and binds
    the session to [dn]; the visiting order splits at the first accepting
    backend, and the backends whose [Authenticate] was called are exactly
    those up to and including it, so none after it is consulted. *)
Theorem Bind_first_success_wins proxy order p s w req :
  range_order proxy order →
  sessions w !! p = Some s →
  (∃ name b, backends proxy !! name = Some b ∧
             Authenticate b (breq_DN req)
               (String.string_of_list_byte (breq_Password req)) = true) →
  ∃ tried winner rest w' evs,
    order = tried ++ winner :: rest ∧
    Forall (λ b, accepts req b = false) tried ∧
    accepts req winner = true ∧
    Bind order (CtxSession p) req w =
      (Ret (Some (mkBaseResponse ResultSuccess (breq_DN req)), None), w') ∧
    identity w' p = Some (breq_DN req) ∧
    trace w' = trace w ++ evs ∧
    consulted evs = Name <$> (tried ++ [winner]).
Proof.
  intros Horder Hp (name & b & Hb & Hacc).
  destruct (first_true_split (accepts req) order)
    as (tried & winner & rest & -> & Htried & Hwin).
  { exists b. split; [|done]. eapply range_order_elem_of; eauto. }
  eexists tried, winner, rest, _, _. split_and!; [done..| | | |].
  - by eapply Bind_run_hit.
  - apply identity_insert.
  - cbn [trace]. reflexivity.
  - rewrite !consulted_app, consulted_auth_events. cbn.
    by rewrite app_nil_r.
Qed.

Lemma Bind_first_success_wins_sample :
  ∃ tried winner rest w' evs,
    sample_order = tried ++ winner :: rest ∧
    Forall (λ b, accepts admin_bind b = false) tried ∧
    accepts admin_bind winner = true ∧
    Bind sample_order (CtxSession 0) admin_bind fresh_world =
      (Ret (Some (mkBaseResponse ResultSuccess "cn=admin,dc=x"), None), w') ∧
    identity w' 0 = Some "cn=admin,dc=x" ∧
    trace w' = trace fresh_world ++ evs ∧
    consulted evs = Name <$> (tried ++ [winner]).
Proof.
  apply (Bind_first_success_wins sample_proxy sample_order 0
           (mkSession "") fresh_world admin_bind).
  - solve_range_order.
  - reflexivity.
  - exists "ldap", ldapBackend. split; vm_compute; reflexivity.
Defined.

(** C2.  A bind on a live session first stores the empty identity, before
    any backend call; when no registered backend accepts (in particular
    when none is registered) it answers InvalidCredentials and the session
    is left with the empty identity, whatever it was bound to before. *)
Theorem Bind_failure_resets_identity proxy order p s w req :
  range_order proxy order →
  sessions w !! p = Some s →
  (∃ out w' before after,
      Bind order (CtxSession p) req w = (out, w') ∧
      trace w' = trace w ++ before ++ EvStoreDN p "" :: after ∧
      no_backend_call before) ∧
  ((∀ name b, backends proxy !! name = Some b →
              Authenticate b (breq_DN req)
                (String.string_of_list_byte (breq_Password req)) = false) →
   ∃ w',
     Bind order (CtxSession p) req w =
       (Ret (Some (mkBaseResponse ResultInvalidCredentials ""), None), w') ∧
     identity w' p = Some "") ∧
  (backends proxy = ∅ →
   ∃ w',
     Bind order (CtxSession p) req w =
       (Ret (Some (mkBaseResponse ResultInvalidCredentials ""), None), w') ∧
     identity w' p = Some "").
Proof.
  intros Horder Hp.
  assert (Hmiss : Forall (λ b, accepts req b = false) order →
    ∃ w',
     Bind order (CtxSession p) req w =
       (Ret (Some (mkBaseResponse ResultInvalidCredentials ""), None), w') ∧
     identity w' p = Some "").
  { intros Hall. eexists. split; [by eapply Bind_run_miss|].
    apply identity_insert. }
  split_and!.
  - destruct (accepts_split_or_miss req order)
      as [(tried & winner & rest & -> & Htried & Hwin)|Hall].
    + eexists _, _, [EvDebug _; EvCounter "bind"], _.
      split; [by eapply Bind_run_hit|]. split; [cbn; reflexivity|].
      by repeat constructor.
    + eexists _, _, [EvDebug _; EvCounter "bind"], _.
      split; [by eapply Bind_run_miss|]. split; [cbn; reflexivity|].
      by repeat constructor.
  - intros Hnone. apply Hmiss, Forall_forall. intros b Hb.
    apply (range_order_elem_of _ _ _ Horder) in Hb as [name Hname].
    by eapply Hnone.
  - intros Hempty. apply Hmiss.
    by rewrite (range_order_empty _ _ Horder Hempty).
Qed.

Lemma Bind_failure_resets_identity_sample :
  (∃ out w' before after,
      Bind sample_order (CtxSession 0) wrong_bind sample_world = (out, w') ∧
      trace w' = trace sample_world ++ before ++ EvStoreDN 0 "" :: after ∧
      no_backend_call before) ∧
  (∃ w',
     Bind sample_order (CtxSession 0) wrong_bind sample_world =
       (Ret (Some (mkBaseResponse ResultInvalidCredentials ""), None), w') ∧
     identity w' 0 = Some "").
Proof.
  destruct (Bind_failure_resets_identity sample_proxy sample_order 0
              (mkSession "cn=admin,dc=x") sample_world wrong_bind)
    as (Hreset & Hfail & _).
  - solve_range_order.
  - reflexivity.
  - split; [exact Hreset|]. apply Hfail.
    apply (bool_decide_unpack
             (map_Forall (λ _ b, accepts wrong_bind b = false)
                (backends sample_proxy))).
    vm_compute. exact I.
Defined.

(** ** The session state after a bind *)

(** C7, as the code has it.  After a bind on a live session the identity
    is the requested [dn] when the answer is Success and empty when it is
    InvalidCredentials, and there is no third answer; so Success holds
    exactly when the identity is non-empty for every bind whose requested
    [dn] is non-empty. *)
Theorem Bind_identity_follows_result order p s w req :
  sessions w !! p = Some s →
  ∃ res w',
    Bind order (CtxSession p) req w = (Ret (Some res, None), w') ∧
    (Code res = ResultSuccess ∧ identity w' p = Some (breq_DN req)
     ∨ Code res = ResultInvalidCredentials ∧ identity w' p = Some "") ∧
    (breq_DN req ≠ "" →
     Code res = ResultSuccess ↔ identity w' p ≠ Some "").
Proof.
  intros Hp.
  destruct (accepts_split_or_miss req order)
    as [(tried & winner & rest & -> & Htried & Hwin)|Hall].
  - eexists _, _. split; [by eapply Bind_run_hit|].
    rewrite identity_insert. cbn. split; [by left|].
    intros Hne. split; [congruence|done].
  - eexists _, _. split; [by eapply Bind_run_miss|].
    rewrite identity_insert. cbn. split; [by right|].
    intros Hne. split; [done|congruence].
Qed.

Lemma Bind_identity_follows_result_sample :
  ∃ res w',
    Bind sample_order (CtxSession 0) admin_bind fresh_world =
      (Ret (Some res, None), w') ∧
    (Code res = ResultSuccess ∧ identity w' 0 = Some "cn=admin,dc=x"
     ∨ Code res = ResultInvalidCredentials ∧ identity w' 0 = Some "") ∧
    ("cn=admin,dc=x" ≠ "" →
     Code res = ResultSuccess ↔ identity w' 0 ≠ Some "").
Proof.
  apply (Bind_identity_follows_result sample_order 0 (mkSession "")
           fresh_world admin_bind).
  reflexivity.
Defined.

(** C7 fails as stated: the guest backend accepts the empty [dn], the
    bind answers Success, and the identity of the session is empty
    afterwards. *)
Lemma Bind_success_with_empty_identity :
  range_order sample_proxy sample_order ∧
  sessions fresh_world !! 0 = Some (mkSession "") ∧
  ∃ res w',
    Bind sample_order (CtxSession 0) anonymous_bind fresh_world =
      (Ret (Some res, None), w') ∧
    ¬ (Code res = ResultSuccess ↔ identity w' 0 ≠ Some "").
Proof.
  split; [solve_range_order|]. split; [reflexivity|].
  eexists _, _. split; [vm_compute; reflexivity|].
  cbn. intros [Hsucc _]. by apply Hsucc.
Qed.

(** ** Search: converting users to search results *)

Lemma Search_values_range_fmap values :
  Search_values_range values = String.list_byte_of_string <$> values.
Proof.
  unfold Search_values_range.
  enough (∀ acc, foldl (λ convertedValues value,
                          convertedValues ++ [String.list_byte_of_string value])
                       acc values
                 = acc ++ (String.list_byte_of_string <$> values)) as H
    by apply H.
  induction values as [|v values IH]; intros acc; cbn.
  - by rewrite app_nil_r.
  - by rewrite IH, <-app_assoc.
Qed.

(** Inserting the converted entries one by one, starting from [attrs0],
    yields the converted map over [attrs0], as long as no key is visited
    twice. *)
Lemma Search_attributes_foldl (visit : list (string * list string))
    (attrs0 : gmap string (list (list byte))) :
  NoDup visit.*1 →
  foldl (λ attrs kv, <[kv.1 := Search_values_range kv.2]> attrs) attrs0 visit
  = (Search_values_range <$> (list_to_map visit : gmap string (list string)))
    ∪ attrs0.
Proof.
  revert attrs0. induction visit as [|[k v] visit IH]; intros attrs0 Hnd.
  - cbn. by rewrite fmap_empty, (left_id_L ∅ (∪)).
  - cbn in Hnd. apply NoDup_cons in Hnd as [Hk Hnd].
    cbn [foldl list_to_map foldr fst snd uncurry]. rewrite IH by done.
    rewrite fmap_insert, <-insert_union_l. symmetry. apply insert_union_r.
    rewrite lookup_fmap. apply fmap_None.
    by apply not_elem_of_list_to_map_1.
Qed.

(** The attribute loop computes the same map in whatever order the
    runtime visits the attributes of the user. *)
Lemma Search_attributes_range_any_order visit (attrs : gmap string (list string)) :
  visit ≡ₚ map_to_list attrs →
  Search_attributes_range visit
  = fmap (M := list) String.list_byte_of_string <$> attrs.
Proof.
  intros Hperm. unfold Search_attributes_range.
  assert (NoDup visit.*1) as Hnd.
  { rewrite Hperm. apply NoDup_fst_map_to_list. }
  rewrite Search_attributes_foldl by done.
  rewrite (right_id_L ∅ (∪)).
  rewrite (list_to_map_proper visit (map_to_list attrs)) by done.
  rewrite list_to_map_to_list.
  apply map_fmap_ext. intros k values _. apply Search_values_range_fmap.
Qed.

Lemma Search_users_range_wire searchResults users :
  Search_users_range searchResults users
  = searchResults ++ (wire_user <$> users).
Proof.
  unfold Search_users_range. revert searchResults.
  induction users as [|u users IH]; intros acc; cbn.
  - by rewrite app_nil_r.
  - rewrite IH, <-app_assoc. cbn. unfold wire_user.
    by rewrite (Search_attributes_range_any_order _ (user_Attributes u)).
Qed.

(** What the specified aggregation amounts to: every attribute of a user
    is found under its own key with its values cast in order, and the
    result list has one entry per user returned. *)
Lemma wire_user_lookup u key :
  sr_Attributes (wire_user u) !! key
  = fmap (M := list) String.list_byte_of_string <$> user_Attributes u !! key.
Proof. unfold wire_user. cbn. apply lookup_fmap. Qed.

Lemma aggregate_length filter order :
  length (aggregate filter order)
  = sum_list ((λ b, length (GetUsers b filter).1) <$> order).
Proof.
  induction order as [|b bs IH]; [done|].
  unfold aggregate in *. cbn.
  by rewrite length_app, length_fmap, IH.
Qed.

(** ** Search: the loop over the backends *)

Section SearchLoop.
Variable req : SearchRequest.

Lemma Search_range_ok searchResults bs w :
  Forall (answers_users (sreq_Filter req)) bs →
  performs (Search_range req searchResults bs) w
    (inl (searchResults ++ aggregate (sreq_Filter req) bs)) (search_events (sreq_Filter req) bs).
Proof.
  unfold performs. revert searchResults w.
  induction bs as [|b bs IH]; intros acc w Hbs.
  - cbn. rewrite !app_nil_r. by destruct w.
  - apply Forall_cons in Hbs as [Hb Hbs]. unfold answers_users in Hb.
    cbn [Search_range]. unfold call_GetUsers. mstep.
    rewrite Hb, IH by done. mstep.
    rewrite Search_users_range_wire. cbn.
    by rewrite <-!app_assoc.
Qed.

Lemma Search_range_err searchResults done failing rest err w :
  Forall (answers_users (sreq_Filter req)) done →
  (GetUsers failing (sreq_Filter req)).2 = Some err →
  performs (Search_range req searchResults (done ++ failing :: rest)) w
    (inr err) (search_events (sreq_Filter req) (done ++ [failing])).
Proof.
  unfold performs. revert searchResults w.
  induction done as [|b bs IH]; intros acc w Hbs Herr.
  - cbn [app Search_range]. unfold call_GetUsers. mstep.
    rewrite Herr. mstep. cbn. by rewrite <-!app_assoc.
  - apply Forall_cons in Hbs as [Hb Hbs]. unfold answers_users in Hb.
    rewrite <-app_comm_cons. cbn [Search_range].
    unfold call_GetUsers. mstep.
    rewrite Hb, IH by done. mstep. cbn.
    by rewrite <-!app_assoc.
Qed.
End SearchLoop.

(** ** Complete runs of [Search] on a live session *)

Lemma Search_run_denied order p s req w :
  sessions w !! p = Some s →
  dn s = "" →
  performs (Search order (CtxSession p) req) w
    (Some search_denied, None) [EvCounter "search"].
Proof.
  intros Hp Hdn. unfold performs, Search. mstep.
  erewrite run_load_dn by done. rewrite Hdn. by mstep.
Qed.

Lemma Search_run_ok order p s req w :
  sessions w !! p = Some s →
  dn s ≠ "" →
  Forall (answers_users (sreq_Filter req)) order →
  performs (Search order (CtxSession p) req) w
    (Some (search_success (aggregate (sreq_Filter req) order)), None)
    (search_prologue (dn s) req ++ search_events (sreq_Filter req) order).
Proof.
  intros Hp Hdn Hok. unfold performs, Search. mstep.
  erewrite run_load_dn by done. rewrite decide_False by done.
  unfold Printf. mstep. erewrite run_load_dn by done. mstep.
  rewrite Search_range_ok by done. mstep.
  unfold search_prologue. by rewrite <-!app_assoc.
Qed.

Lemma Search_run_err done failing rest err p s req w :
  sessions w !! p = Some s →
  dn s ≠ "" →
  Forall (answers_users (sreq_Filter req)) done →
  (GetUsers failing (sreq_Filter req)).2 = Some err →
  performs (Search (done ++ failing :: rest) (CtxSession p) req) w
    (None, Some err)
    (search_prologue (dn s) req
       ++ search_events (sreq_Filter req) (done ++ [failing])).
Proof.
  intros Hp Hdn Hok Herr. unfold performs, Search. mstep.
  erewrite run_load_dn by done. rewrite decide_False by done.
  unfold Printf. mstep. erewrite run_load_dn by done. mstep.
  erewrite Search_range_err by done. mstep.
  unfold search_prologue. by rewrite <-!app_assoc.
Qed.

Lemma queried_search_prologue d req : queried (search_prologue d req) = [].
Proof. reflexivity. Qed.

(** C4.  A search on a live session with the empty identity answers
    InsufficientAccessRights with a nil error, and its only effect is the
    request counter: no backend is called. *)
Theorem Search_unauthenticated_denied order p s w req :
  sessions w !! p = Some s →
  dn s = "" →
  ∃ evs,
    performs (Search order (CtxSession p) req) w
      (Some (mkSearchResponse
               (mkBaseResponse ResultInsufficientAccessRights "") []),
       None) evs ∧
    no_backend_call evs ∧
    queried evs = [].
Proof.
  intros Hp Hdn. exists [EvCounter "search"].
  split; [by eapply Search_run_denied|].
  split; [by repeat constructor|done].
Qed.

Lemma Search_unauthenticated_denied_sample :
  ∃ evs,
    performs (Search sample_order (CtxSession 0) everyone) fresh_world
      (Some (mkSearchResponse
               (mkBaseResponse ResultInsufficientAccessRights "") []),
       None) evs ∧
    no_backend_call evs ∧
    queried evs = [].
Proof.
  apply (Search_unauthenticated_denied sample_order 0 (mkSession "")
           fresh_world everyone); reflexivity.
Defined.

(** C5.  When some registered backend reports an error for the filter, a
    search on an authenticated session returns no response and the error
    of the first failing backend in visiting order, as it is; the users
    of the backends visited before it are dropped and the backends after
    it are not queried. *)
Theorem Search_backend_error_aborts proxy order p s w req :
  range_order proxy order →
  sessions w !! p = Some s →
  dn s ≠ "" →
  (∃ name b, backends proxy !! name = Some b ∧
             (GetUsers b (sreq_Filter req)).2 ≠ None) →
  ∃ done failing rest err evs,
    order = done ++ failing :: rest ∧
    Forall (answers_users (sreq_Filter req)) done ∧
    (GetUsers failing (sreq_Filter req)).2 = Some err ∧
    performs (Search order (CtxSession p) req) w (None, Some err) evs ∧
    queried evs = Name <$> (done ++ [failing]).
Proof.
  intros Horder Hp Hdn (name & b & Hb & Hfail).
  destruct (first_true_split
              (λ b, bool_decide ((GetUsers b (sreq_Filter req)).2 ≠ None))
              order)
    as (done & failing & rest & -> & Hdone & Hfailing).
  { exists b. split; [by eapply range_order_elem_of; eauto|].
    by apply bool_decide_eq_true_2. }
  apply bool_decide_eq_true_1 in Hfailing.
  destruct ((GetUsers failing (sreq_Filter req)).2) as [err|] eqn:Herr;
    [|done].
  assert (Forall (answers_users (sreq_Filter req)) done) as Hok.
  { eapply Forall_impl; [exact Hdone|]. intros b' Hb'.
    apply bool_decide_eq_false_1 in Hb'. unfold answers_users.
    by destruct ((GetUsers b' (sreq_Filter req)).2); [destruct Hb'|]. }
  eexists done, failing, rest, err, _. split_and!; [done..| |].
  - by eapply Search_run_err.
  - by rewrite queried_app, queried_search_prologue, queried_search_events.
Qed.

Lemma Search_backend_error_aborts_sample :
  ∃ done failing rest err evs,
    broken_order = done ++ failing :: rest ∧
    Forall (answers_users (sreq_Filter everyone)) done ∧
    (GetUsers failing (sreq_Filter everyone)).2 = Some err ∧
    performs (Search broken_order (CtxSession 0) everyone) sample_world
      (None, Some err) evs ∧
    queried evs = Name <$> (done ++ [failing]).
Proof.
  apply (Search_backend_error_aborts broken_proxy broken_order 0
           (mkSession "cn=admin,dc=x") sample_world everyone).
  - solve_range_order.
  - reflexivity.
  - vm_compute. discriminate.
  - exists "broken", brokenBackend. split; [vm_compute; reflexivity|].
    vm_compute. discriminate.
Defined.

(** C6.  When every registered backend answers the filter without an
    error, a search on an authenticated session answers Success with the
    concatenation, in visiting order and then in each backend's own
    order, of one result per user: the same DN, the same attribute keys,
    and each value cast to its bytes.  Every backend is queried once, and
    with no backend registered the result list is empty. *)
Theorem Search_aggregates proxy order p s w req :
  range_order proxy order →
  sessions w !! p = Some s →
  dn s ≠ "" →
  (∀ name b, backends proxy !! name = Some b →
             (GetUsers b (sreq_Filter req)).2 = None) →
  ∃ evs,
    performs (Search order (CtxSession p) req) w
      (Some (mkSearchResponse (mkBaseResponse ResultSuccess "")
               (aggregate (sreq_Filter req) order)),
       None) evs ∧
    queried evs = Name <$> order ∧
    (backends proxy = ∅ → aggregate (sreq_Filter req) order = []).
Proof.
  intros Horder Hp Hdn Hall.
  assert (Forall (answers_users (sreq_Filter req)) order) as Hok.
  { apply Forall_forall. intros b Hb.
    apply (range_order_elem_of _ _ _ Horder) in Hb as [name Hname].
    by eapply Hall. }
  eexists. split_and!.
  - by eapply Search_run_ok.
  - by rewrite queried_app, queried_search_prologue, queried_search_events.
  - intros Hempty. by rewrite (range_order_empty _ _ Horder Hempty).
Qed.

Lemma Search_aggregates_sample :
  ∃ evs,
    performs (Search sample_order (CtxSession 0) everyone) sample_world
      (Some (mkSearchResponse (mkBaseResponse ResultSuccess "")
               (aggregate (sreq_Filter everyone) sample_order)),
       None) evs ∧
    queried evs = Name <$> sample_order ∧
    (backends sample_proxy = ∅ →
     aggregate (sreq_Filter everyone) sample_order = []).
Proof.
  apply (Search_aggregates sample_proxy sample_order 0
           (mkSession "cn=admin,dc=x") sample_world everyone).
  - solve_range_order.
  - reflexivity.
  - vm_compute. discriminate.
  - apply (bool_decide_unpack
             (map_Forall (λ _ b, (GetUsers b (sreq_Filter everyone)).2 = None)
                (backends sample_proxy))).
    vm_compute. exact I.
Defined.

(** ** Anonymous bind *)

(** C10.  With the empty [dn] and a registered backend that accepts it, a
    bind on a live session answers Success with the empty MatchedDN and
    leaves the identity empty, so that any search that follows on the
    same session is answered InsufficientAccessRights. *)
Theorem anonymous_bind_then_search_denied
    proxy order order' p s w breq sreq :
  range_order proxy order →
  range_order proxy order' →
  sessions w !! p = Some s →
  breq_DN breq = "" →
  (∃ name b, backends proxy !! name = Some b ∧
             Authenticate b ""
               (String.string_of_list_byte (breq_Password breq)) = true) →
  ∃ w',
    Bind order (CtxSession p) breq w =
      (Ret (Some (mkBaseResponse ResultSuccess ""), None), w') ∧
    identity w' p = Some "" ∧
    performs (Search order' (CtxSession p) sreq) w'
      (Some (mkSearchResponse
               (mkBaseResponse ResultInsufficientAccessRights "") []),
       None)
      [EvCounter "search"].
Proof.
  intros Horder _ Hp Hdn (name & b & Hb & Hacc).
  destruct (first_true_split (accepts breq) order)
    as (tried & winner & rest & -> & Htried & Hwin).
  { exists b. split; [by eapply range_order_elem_of; eauto|].
    unfold accepts. by rewrite Hdn. }
  eexists. split; [|split].
  - erewrite Bind_run_hit by done. by rewrite Hdn.
  - apply identity_insert.
  - apply (Search_run_denied _ _ (mkSession "")); [|reflexivity].
    cbn. apply lookup_insert_eq.
Qed.

Lemma anonymous_bind_then_search_denied_sample :
  ∃ w',
    Bind sample_order (CtxSession 0) anonymous_bind sample_world =
      (Ret (Some (mkBaseResponse ResultSuccess ""), None), w') ∧
    identity w' 0 = Some "" ∧
    performs (Search sample_order (CtxSession 0) everyone) w'
      (Some (mkSearchResponse
               (mkBaseResponse ResultInsufficientAccessRights "") []),
       None)
      [EvCounter "search"].
Proof.
  apply (anonymous_bind_then_search_denied sample_proxy sample_order
           sample_order 0 (mkSession "cn=admin,dc=x") sample_world
           anonymous_bind everyone).
  - solve_range_order.
  - solve_range_order.
  - reflexivity.
  - reflexivity.
  - exists "guest", guestBackend. split; vm_compute; reflexivity.
Defined.

(** ** The statically denied operations *)

Lemma answers_counter {A} (action : string) (a : A) :
  answers (emit (EvCounter action);; mret (a, None)) a.
Proof.
  intros w. exists [EvCounter action]. split; [reflexivity|].
  by repeat constructor.
Qed.

(** C3.  Whatever the context, the session behind it and the request,
    Add, Delete, Modify, ModifyDN and ExtendedRequest answer
    UnwillingToPerform with a nil error and PasswordModify answers the
    empty byte sequence with a nil error; none of them touches a session
    or calls a backend. *)
Theorem mutating_operations_denied
    {AddRequest DeleteRequest ExtendedRequest_t ModifyRequest
     ModifyDNRequest PasswordModifyRequest : Type}
    (ctx : Context)
    (add : AddRequest) (del : DeleteRequest) (ext : ExtendedRequest_t)
    (mod_ : ModifyRequest) (moddn : ModifyDNRequest)
    (pwd : PasswordModifyRequest) :
  answers (Add ctx add) (Some (mkBaseResponse ResultUnwillingToPerform "")) ∧
  answers (Delete ctx del) (Some (mkBaseResponse ResultUnwillingToPerform "")) ∧
  answers (Modify ctx mod_) (Some (mkBaseResponse ResultUnwillingToPerform "")) ∧
  answers (ModifyDN ctx moddn)
    (Some (mkBaseResponse ResultUnwillingToPerform "")) ∧
  answers (ExtendedRequest ctx ext)
    (Some (mkBaseResponse ResultUnwillingToPerform "")) ∧
  answers (PasswordModify ctx pwd) [].
Proof. split_and!; apply answers_counter. Qed.

(** ** Contexts that are not sessions *)

(** C8, as the code has it.  On a context whose dynamic type is not
    [*session], Bind, Search and Whoami return [errInvalidSessionType]
    and no response (Bind after its debug line, the other two without any
    effect); Disconnect returns without any effect, having no error to
    return; the statically denied operations never look at the context
    and give their fixed answers with a nil error. *)
Theorem foreign_context_outcomes
    {AddRequest DeleteRequest ExtendedRequest_t ModifyRequest
     ModifyDNRequest PasswordModifyRequest : Type}
    (order : list Backend) (v : string) (w : World)
    (breq : BindRequest) (sreq : SearchRequest)
    (add : AddRequest) (del : DeleteRequest) (ext : ExtendedRequest_t)
    (mod_ : ModifyRequest) (moddn : ModifyDNRequest)
    (pwd : PasswordModifyRequest) :
  performs (Bind order (CtxForeign v) breq) w
    (None, Some errInvalidSessionType)
    [EvDebug ("bind as " +:+ breq_DN breq)] ∧
  performs (Search order (CtxForeign v) sreq) w
    (None, Some errInvalidSessionType) [] ∧
  performs (Whoami (CtxForeign v)) w ("", Some errInvalidSessionType) [] ∧
  performs (Disconnect (CtxForeign v)) w tt [] ∧
  performs (Add (CtxForeign v) add) w (Some unwilling, None)
    [EvCounter "add"] ∧
  performs (Delete (CtxForeign v) del) w (Some unwilling, None)
    [EvCounter "delete"] ∧
  performs (Modify (CtxForeign v) mod_) w (Some unwilling, None)
    [EvCounter "modify"] ∧
  performs (ModifyDN (CtxForeign v) moddn) w (Some unwilling, None)
    [EvCounter "modify_dn"] ∧
  performs (ExtendedRequest (CtxForeign v) ext) w (Some unwilling, None)
    [EvCounter "extended"] ∧
  performs (PasswordModify (CtxForeign v) pwd) w ([], None)
    [EvCounter "modify_password"].
Proof.
  unfold performs. split_and!; try reflexivity;
    cbn; rewrite app_nil_r; by destruct w.
Qed.

(** C8 fails as stated: on a context that is not a session, Add returns
    its fixed response with a nil error, and Disconnect returns nothing
    at all. *)
Lemma Add_foreign_context_no_error :
  Add (CtxForeign "net.Conn") () sample_world =
    (Ret (Some (mkBaseResponse ResultUnwillingToPerform ""), None),
     mkWorld (sessions sample_world) [EvCounter "add"]) ∧
  (¬ ∃ resp w',
      Add (CtxForeign "net.Conn") () sample_world =
        (Ret (resp, Some errInvalidSessionType), w')) ∧
  Disconnect (CtxForeign "net.Conn") sample_world = (Ret (), sample_world).
Proof.
  split; [reflexivity|]. split; [|reflexivity].
  intros (resp & w' & Heq). discriminate Heq.
Qed.

(** ** Whoami *)

(** On a live session [Whoami] returns the bound identity, empty or not,
    and changes nothing: asking again gives the same answer. *)
Lemma Whoami_run p s w :
  sessions w !! p = Some s →
  performs (Whoami (CtxSession p)) w (dn s, None)
    [EvCounter "whoami"; EvLog (dn s +:+ ": Who am I")].
Proof.
  intros Hp. unfold performs, Whoami, Println. mstep.
  erewrite run_load_dn by done. mstep.
  erewrite run_load_dn by done. mstep.
  by rewrite <-app_assoc.
Qed.

Lemma Whoami_twice p s w :
  sessions w !! p = Some s →
  ∃ w1 w2,
    Whoami (CtxSession p) w = (Ret (dn s, None), w1) ∧
    Whoami (CtxSession p) w1 = (Ret (dn s, None), w2).
Proof.
  intros Hp. eexists _, _. split.
  - by apply Whoami_run.
  - by apply (Whoami_run p s).
Qed.

(** ** The frame of the handlers other than Bind *)

Lemma frames_ret {A} (a : A) : frames (mret a).
Proof. by intros w. Qed.

Lemma frames_bind {A B} (m : M A) (k : A → M B) :
  frames m → (∀ a, frames (k a)) → frames (m ≫= k).
Proof.
  intros Hm Hk w. rewrite run_bind. specialize (Hm w).
  destruct (m w) as [[a|] w1]; cbn in *; [|done].
  by rewrite Hk.
Qed.

Lemma frames_emit e : frames (emit e).
Proof. by intros w. Qed.

Lemma frames_load_dn p : frames (load_dn p).
Proof. intros w. unfold load_dn. by destruct (sessions w !! p). Qed.

Lemma frames_Println p v : frames (Println p v).
Proof.
  apply frames_bind; [apply frames_load_dn|]. intros d. apply frames_emit.
Qed.

Lemma frames_Search_range req searchResults order :
  frames (Search_range req searchResults order).
Proof.
  revert searchResults. induction order as [|b bs IH]; intros acc.
  - apply frames_ret.
  - cbn [Search_range]. unfold call_GetUsers.
    repeat (apply frames_bind; [|intros ?]);
      try apply frames_emit; try apply frames_ret.
    destruct (_.2); [apply frames_ret|apply IH].
Qed.

Create HintDb frames.
#[local] Hint Resolve frames_ret frames_emit frames_load_dn frames_Println
  frames_Search_range : frames.

Ltac solve_frames :=
  repeat first
    [ progress eauto with frames
    | apply frames_bind; [|intros ?]
    | case_decide
    | match goal with |- frames (match ?x with _ => _ end) => destruct x end ].

(** C9.  Search, Whoami, Disconnect and the statically denied operations
    leave every session cell, hence every bound identity, as they found
    it: on every context, from every world, whatever they return. *)
Theorem identity_written_only_by_Bind
    {AddRequest DeleteRequest ExtendedRequest_t ModifyRequest
     ModifyDNRequest PasswordModifyRequest : Type}
    (order : list Backend) (ctx : Context) (sreq : SearchRequest)
    (add : AddRequest) (del : DeleteRequest) (ext : ExtendedRequest_t)
    (mod_ : ModifyRequest) (moddn : ModifyDNRequest)
    (pwd : PasswordModifyRequest) :
  frames (Search order ctx sreq) ∧
  frames (Whoami ctx) ∧
  frames (Disconnect ctx) ∧
  frames (Add ctx add) ∧
  frames (Delete ctx del) ∧
  frames (Modify ctx mod_) ∧
  frames (ModifyDN ctx moddn) ∧
  frames (ExtendedRequest ctx ext) ∧
  frames (PasswordModify ctx pwd).
Proof.
  split_and!;
    unfold Search, Whoami, Disconnect, Add, Delete, Modify, ModifyDN,
      ExtendedRequest, PasswordModify, Printf;
    destruct ctx; solve_frames.
Qed.

(** ** The sample deployment, evaluated *)

(** Bind as the administrator, then search: the file backend is visited
    first and the guest backend last, and the three users come back in
    that order. *)
Example sample_bind_then_search :
  ∃ w1 w2 results,
    Bind sample_order (CtxSession 0) admin_bind fresh_world =
      (Ret (Some (mkBaseResponse ResultSuccess "cn=admin,dc=x"), None), w1) ∧
    consulted (trace w1) = ["file"; "ldap"] ∧
    Search sample_order (CtxSession 0) everyone w1 =
      (Ret (Some (mkSearchResponse (mkBaseResponse ResultSuccess "") results),
            None), w2) ∧
    sr_DN <$> results = ["cn=bob,dc=x"; "cn=eve,dc=x"; "cn=admin,dc=x"] ∧
    (sr_Attributes <$> results) !! 2 =
      Some (<["cn" := [String.list_byte_of_string "admin"]]>
              (<["mail" := [String.list_byte_of_string "admin@x";
                            String.list_byte_of_string "root@x"]]> ∅)) ∧
    queried (trace w2) = ["file"; "ldap"; "guest"].
Proof.
  eexists _, _, _. split; [vm_compute; reflexivity|].
  split; [vm_compute; reflexivity|].
  split; [vm_compute; reflexivity|].
  split_and!; vm_compute; reflexivity.
Qed.

(** A failed bind on a session that was bound before unbinds it. *)
Example sample_failed_rebind :
  ∃ w1,
    Bind sample_order (CtxSession 0) wrong_bind sample_world =
      (Ret (Some (mkBaseResponse ResultInvalidCredentials ""), None), w1) ∧
    identity sample_world 0 = Some "cn=admin,dc=x" ∧
    identity w1 0 = Some "" ∧
    consulted (trace w1) = ["file"; "ldap"; "guest"].
Proof.
  eexists. split; [vm_compute; reflexivity|].
  split_and!; vm_compute; reflexivity.
Qed.

(** * Further properties of the handlers *)

(** ** The registry *)

Lemma AddBackend_range_lookup registry bs name :
  AddBackend_range registry bs !! name
  = match last (filter (λ b, Name b = name) bs) with
    | Some b => Some b
    | None => registry !! name
    end.
Proof.
  unfold AddBackend_range. revert registry.
  induction bs as [|b bs IH]; intros registry; [done|].
  cbn [foldl]. rewrite IH. rewrite filter_cons.
  destruct (decide (Name b = name)) as [Hname|Hname].
  - rewrite last_cons.
    destruct (last (filter (λ b0, Name b0 = name) bs)); [done|].
    by rewrite <-Hname, lookup_insert_eq.
  - destruct (last (filter (λ b0, Name b0 = name) bs)); [done|].
    by rewrite lookup_insert_ne.
Qed.

(** Registration replaces: after [AddBackend], a name is bound to the
    last backend of the argument list that carries it, and to what it was
    bound before when no argument carries it.  The only effect is the log
    line with the number of arguments. *)
Theorem AddBackend_last_registration_wins proxy bs w :
  ∃ proxy',
    performs (AddBackend proxy bs) w proxy'
      [EvLog ("Adding " +:+ pretty (length bs) +:+ " backends")] ∧
    ∀ name,
      backends proxy' !! name
      = match last (filter (λ b, Name b = name) bs) with
        | Some b => Some b
        | None => backends proxy !! name
        end.
Proof.
  eexists. split; [reflexivity|].
  intros name. cbn. apply AddBackend_range_lookup.
Qed.

Lemma AddBackend_range_keyed registry bs :
  keyed_by_name registry → keyed_by_name (AddBackend_range registry bs).
Proof.
  unfold AddBackend_range. revert registry.
  induction bs as [|b bs IH]; intros registry Hkeyed; [done|].
  cbn [foldl]. apply IH. by apply map_Forall_insert_2.
Qed.

(** Every registry built from [NewLdapProxy] by calls of [AddBackend]
    stores each backend under its own name, so that the metric label
    [backend.Name()] of an entry is the key of that entry. *)
Theorem AddBackend_keeps_names proxy bs w :
  keyed_by_name (backends NewLdapProxy) ∧
  (keyed_by_name (backends proxy) →
   ∃ proxy' w',
     AddBackend proxy bs w = (Ret proxy', w') ∧
     keyed_by_name (backends proxy')).
Proof.
  split; [apply map_Forall_empty|].
  intros Hkeyed. eexists _, _. split; [reflexivity|].
  cbn. by apply AddBackend_range_keyed.
Qed.

Lemma AddBackend_keeps_names_sample :
  ∃ proxy' w',
    AddBackend sample_proxy [shadowBackend; brokenBackend] fresh_world
      = (Ret proxy', w') ∧
    keyed_by_name (backends proxy').
Proof.
  apply (AddBackend_keeps_names sample_proxy [shadowBackend; brokenBackend]
           fresh_world).
  apply (bool_decide_unpack
           (map_Forall (λ name b, Name b = name) (backends sample_proxy))).
  vm_compute. exact I.
Defined.

Lemma range_order_names proxy order :
  keyed_by_name (backends proxy) →
  range_order proxy order →
  Name <$> order ≡ₚ (map_to_list (backends proxy)).*1.
Proof.
  unfold range_order. intros Hkeyed ->.
  rewrite <-list_fmap_compose.
  erewrite (Forall_fmap_ext_1 (Name ∘ snd) fst); [done|].
  apply Forall_forall. intros [name b] Hin. cbn.
  apply elem_of_map_to_list in Hin. by apply Hkeyed in Hin.
Qed.

Lemma range_order_NoDup_names proxy order :
  keyed_by_name (backends proxy) →
  range_order proxy order →
  NoDup (Name <$> order).
Proof.
  intros Hkeyed Horder. rewrite (range_order_names _ _ Hkeyed Horder).
  apply NoDup_fst_map_to_list.
Qed.

(** ** Every run of [Bind] on a live session *)

(** The loop asks a prefix of the visiting order; the response is either
    Success with the requested [dn] or InvalidCredentials with the empty
    MatchedDN, and in both cases the identity left in the session is the
    MatchedDN of the response. *)
Lemma Bind_run_cases order p s req w :
  sessions w !! p = Some s →
  ∃ res asked,
    asked `prefix_of` order ∧
    (Code res = ResultSuccess ∧ MatchedDN res = breq_DN req
     ∨ Code res = ResultInvalidCredentials ∧ MatchedDN res = "") ∧
    Bind order (CtxSession p) req w =
      (Ret (Some res, None),
       mkWorld (<[p := mkSession (MatchedDN res)]> (sessions w))
         (trace w ++ bind_prologue p req
            ++ auth_events (breq_DN req)
                 (String.string_of_list_byte (breq_Password req)) asked
            ++ bind_epilogue p req res)).
Proof.
  intros Hp.
  destruct (accepts_split_or_miss req order)
    as [(tried & winner & rest & -> & Htried & Hwin)|Hall].
  - exists (mkBaseResponse ResultSuccess (breq_DN req)), (tried ++ [winner]).
    split; [|split; [by left|by eapply Bind_run_hit]].
    exists rest. by rewrite <-app_assoc.
  - exists (mkBaseResponse ResultInvalidCredentials ""), order.
    split; [done|]. split; [by right|by eapply Bind_run_miss].
Qed.

Lemma observed_app action evs1 evs2 :
  observed action (evs1 ++ evs2)
  = observed action evs1 ++ observed action evs2.
Proof. apply omap_app. Qed.

Lemma counted_app evs1 evs2 :
  counted (evs1 ++ evs2) = counted evs1 ++ counted evs2.
Proof. apply omap_app. Qed.

Lemma logged_app evs1 evs2 :
  logged (evs1 ++ evs2) = logged evs1 ++ logged evs2.
Proof. apply omap_app. Qed.

Lemma observed_auth_events d password bs :
  observed "auth" (auth_events d password bs) = Name <$> bs ∧
  observed "search" (auth_events d password bs) = [] ∧
  counted (auth_events d password bs) = [] ∧
  logged (auth_events d password bs) = [].
Proof.
  induction bs as [|b bs (IH1 & IH2 & IH3 & IH4)]; [done|].
  unfold auth_events in *. rewrite bind_cons.
  rewrite !observed_app, counted_app, logged_app, IH1, IH2, IH3, IH4.
  split_and!; reflexivity.
Qed.

Lemma observed_search_events filter bs :
  observed "search" (search_events filter bs) = Name <$> bs ∧
  observed "auth" (search_events filter bs) = [] ∧
  counted (search_events filter bs) = [] ∧
  logged (search_events filter bs) = [].
Proof.
  induction bs as [|b bs (IH1 & IH2 & IH3 & IH4)]; [done|].
  unfold search_events in *. rewrite bind_cons.
  rewrite !observed_app, counted_app, logged_app, IH1, IH2, IH3, IH4.
  split_and!; reflexivity.
Qed.

(** The observations on a run of [Bind] that the properties below read
    off. *)
Lemma Bind_run_observed order p s req w :
  sessions w !! p = Some s →
  ∃ res asked w' evs,
    asked `prefix_of` order ∧
    (Code res = ResultSuccess ∧ MatchedDN res = breq_DN req
     ∨ Code res = ResultInvalidCredentials ∧ MatchedDN res = "") ∧
    Bind order (CtxSession p) req w = (Ret (Some res, None), w') ∧
    sessions w' = <[p := mkSession (MatchedDN res)]> (sessions w) ∧
    trace w' = trace w ++ evs ∧
    consulted evs = Name <$> asked ∧
    observed "auth" evs = Name <$> asked ∧
    observed "search" evs = [] ∧
    counted evs = ["bind"] ∧
    logged evs =
      [breq_DN req +:+ (if decide (Code res = ResultSuccess)
                        then ": Authentication successful"
                        else ": Authentication failed")].
Proof.
  intros Hp.
  destruct (Bind_run_cases order p s req w Hp)
    as (res & asked & Hpre & Hcode & Hrun).
  destruct (observed_auth_events (breq_DN req)
              (String.string_of_list_byte (breq_Password req)) asked)
    as (Hobs1 & Hobs2 & Hcnt & Hlog).
  eexists res, asked, _, _.
  split; [done|]. split; [done|]. split; [exact Hrun|].
  split; [done|]. split; [done|].
  rewrite !consulted_app, !observed_app, !counted_app, !logged_app.
  rewrite consulted_auth_events, Hobs1, Hobs2, Hcnt, Hlog.
  unfold bind_epilogue.
  split_and!; destruct (decide (Code res = ResultSuccess));
    cbn; by rewrite ?app_nil_r.
Qed.

(** ** What a bind asks, counts and logs *)

(** On a registry that stores every backend under its own name, a bind
    asks no backend twice, and asks registered backends only. *)
Theorem Bind_consults_each_backend_once proxy order p s w req :
  keyed_by_name (backends proxy) →
  range_order proxy order →
  sessions w !! p = Some s →
  ∃ out w' evs,
    Bind order (CtxSession p) req w = (out, w') ∧
    trace w' = trace w ++ evs ∧
    NoDup (consulted evs) ∧
    ∀ name, name ∈ consulted evs →
            ∃ b, backends proxy !! name = Some b ∧ Name b = name.
Proof.
  intros Hkeyed Horder Hp.
  destruct (Bind_run_observed order p s req w Hp)
    as (res & asked & w' & evs & [rest ->] & _ & Hrun & _ & Htrace
        & Hcons & _).
  exists (Ret (Some res, None)), w', evs.
  split; [done|]. split; [done|]. rewrite Hcons. split.
  - pose proof (range_order_NoDup_names _ _ Hkeyed Horder) as Hnd.
    rewrite fmap_app in Hnd. by apply NoDup_app in Hnd as [? _].
  - intros name Hname. apply list_elem_of_fmap in Hname as (b & -> & Hb).
    assert (b ∈ asked ++ rest) as Hin by (apply elem_of_app; by left).
    apply (range_order_elem_of _ _ _ Horder) in Hin as [key Hkey].
    exists b. split; [|done]. by rewrite (Hkeyed _ _ Hkey).
Qed.

Lemma Bind_consults_each_backend_once_sample :
  ∃ out w' evs,
    Bind sample_order (CtxSession 0) wrong_bind sample_world = (out, w') ∧
    trace w' = trace sample_world ++ evs ∧
    NoDup (consulted evs) ∧
    ∀ name, name ∈ consulted evs →
            ∃ b, backends sample_proxy !! name = Some b ∧ Name b = name.
Proof.
  apply (Bind_consults_each_backend_once sample_proxy sample_order 0
           (mkSession "cn=admin,dc=x") sample_world wrong_bind).
  - apply (bool_decide_unpack
             (map_Forall (λ name b, Name b = name) (backends sample_proxy))).
    vm_compute. exact I.
  - solve_range_order.
  - reflexivity.
Defined.

(** A bind on a live session increments the request counter once, under
    "bind", and observes one duration under ("auth", name) for every
    backend it asks, accepting or not; on a context that is not a session
    it counts and observes nothing. *)
Theorem Bind_metrics order p s v w req :
  sessions w !! p = Some s →
  (∃ out w' evs,
     Bind order (CtxSession p) req w = (out, w') ∧
     trace w' = trace w ++ evs ∧
     counted evs = ["bind"] ∧
     observed "auth" evs = consulted evs ∧
     observed "search" evs = []) ∧
  (∃ out w' evs,
     Bind order (CtxForeign v) req w = (out, w') ∧
     trace w' = trace w ++ evs ∧
     counted evs = [] ∧
     observed "auth" evs = [] ∧
     consulted evs = []).
Proof.
  intros Hp. split.
  - destruct (Bind_run_observed order p s req w Hp)
      as (res & asked & w' & evs & _ & _ & Hrun & _ & Htrace
          & Hcons & Hobs & Hobs' & Hcnt & _).
    exists (Ret (Some res, None)), w', evs.
    by rewrite Hcons, Hobs.
  - eexists _, _, [EvDebug _]. split; [reflexivity|]. by cbn.
Qed.

Lemma Bind_metrics_sample :
  (∃ out w' evs,
     Bind sample_order (CtxSession 0) admin_bind fresh_world = (out, w') ∧
     trace w' = trace fresh_world ++ evs ∧
     counted evs = ["bind"] ∧
     observed "auth" evs = consulted evs ∧
     observed "search" evs = []) ∧
  (∃ out w' evs,
     Bind sample_order (CtxForeign "net.Conn") admin_bind fresh_world
       = (out, w') ∧
     trace w' = trace fresh_world ++ evs ∧
     counted evs = [] ∧
     observed "auth" evs = [] ∧
     consulted evs = []).
Proof.
  apply (Bind_metrics sample_order 0 (mkSession "") "net.Conn" fresh_world
           admin_bind).
  reflexivity.
Defined.

(** A bind on a live session writes one audit line, naming the requested
    [dn] and not the backend, and the line says "successful" exactly when
    the result code is Success. *)
Theorem Bind_audit_line order p s w req :
  sessions w !! p = Some s →
  ∃ res w' evs,
    Bind order (CtxSession p) req w = (Ret (Some res, None), w') ∧
    trace w' = trace w ++ evs ∧
    logged evs =
      [breq_DN req +:+ (if decide (Code res = ResultSuccess)
                        then ": Authentication successful"
                        else ": Authentication failed")].
Proof.
  intros Hp.
  destruct (Bind_run_observed order p s req w Hp)
    as (res & asked & w' & evs & _ & _ & Hrun & _ & Htrace
        & _ & _ & _ & _ & Hlog).
  by exists res, w', evs.
Qed.

Lemma Bind_audit_line_sample :
  ∃ res w' evs,
    Bind sample_order (CtxSession 0) wrong_bind sample_world
      = (Ret (Some res, None), w') ∧
    trace w' = trace sample_world ++ evs ∧
    logged evs =
      [breq_DN wrong_bind +:+ (if decide (Code res = ResultSuccess)
                               then ": Authentication successful"
                               else ": Authentication failed")].
Proof.
  apply (Bind_audit_line sample_order 0 (mkSession "cn=admin,dc=x")
           sample_world wrong_bind).
  reflexivity.
Defined.

(** ** The visiting order and the answer of a bind *)

(** The order in which the runtime visits the registry changes neither
    the answer of a bind nor the session store it leaves; only the trace
    of the backends asked depends on it. *)
Theorem Bind_answer_independent_of_order proxy order1 order2 p s w req :
  range_order proxy order1 →
  range_order proxy order2 →
  sessions w !! p = Some s →
  (Bind order1 (CtxSession p) req w).1 = (Bind order2 (CtxSession p) req w).1 ∧
  sessions (Bind order1 (CtxSession p) req w).2
  = sessions (Bind order2 (CtxSession p) req w).2.
Proof.
  intros Horder1 Horder2 Hp.
  assert (Hsame : ∀ b, b ∈ order1 ↔ b ∈ order2).
  { intros b. by rewrite (range_order_elem_of _ _ _ Horder1),
      (range_order_elem_of _ _ _ Horder2). }
  destruct (accepts_split_or_miss req order1)
    as [(tried & winner & rest & -> & Htried & Hwin)|Hall].
  - destruct (first_true_split (accepts req) order2)
      as (tried' & winner' & rest' & -> & Htried' & Hwin').
    { exists winner. split; [|done]. apply Hsame, elem_of_app. right. left. }
    by erewrite !Bind_run_hit.
  - assert (Forall (λ b, accepts req b = false) order2) as Hall'.
    { apply Forall_forall. intros b Hb. apply Hsame in Hb.
      by eapply Forall_forall in Hall. }
    by erewrite !Bind_run_miss.
Qed.

Lemma Bind_answer_independent_of_order_sample :
  (Bind sample_order (CtxSession 0) admin_bind fresh_world).1
  = (Bind [guestBackend; fileBackend; ldapBackend] (CtxSession 0)
       admin_bind fresh_world).1 ∧
  sessions (Bind sample_order (CtxSession 0) admin_bind fresh_world).2
  = sessions (Bind [guestBackend; fileBackend; ldapBackend] (CtxSession 0)
                admin_bind fresh_world).2.
Proof.
  apply (Bind_answer_independent_of_order sample_proxy sample_order
           [guestBackend; fileBackend; ldapBackend] 0 (mkSession "")
           fresh_world admin_bind).
  - solve_range_order.
  - solve_range_order.
  - reflexivity.
Defined.

(** ** Bind and the other sessions *)

(** A bind never creates or removes a session, and writes to no session
    but the one behind its context: on a session context the other cells
    are as before, on any other context all of them are. *)
Theorem Bind_touches_one_session order ctx req w :
  dom (sessions (Bind order ctx req w).2) = dom (sessions w) ∧
  ∀ q, ctx ≠ CtxSession q →
       sessions (Bind order ctx req w).2 !! q = sessions w !! q.
Proof.
  destruct ctx as [p|v]; [|by split].
  destruct (sessions w !! p) as [s|] eqn:Hp.
  - destruct (Bind_run_cases order p s req w Hp)
      as (res & asked & _ & _ & ->). cbn. split.
    + rewrite dom_insert_L. apply subseteq_union_1_L, singleton_subseteq_l.
      by eapply elem_of_dom_2.
    + intros q Hq. apply lookup_insert_ne. congruence.
  - unfold Bind, store_dn. mstep. cbn. rewrite Hp. by split.
Qed.

(** ** Whoami after a bind *)

(** After a bind on a live session [Whoami] returns, with a nil error,
    the MatchedDN of the bind response: the requested [dn] after Success
    and the empty string after InvalidCredentials. *)
Theorem Whoami_after_Bind order p s w req :
  sessions w !! p = Some s →
  ∃ res w1 w2,
    Bind order (CtxSession p) req w = (Ret (Some res, None), w1) ∧
    Whoami (CtxSession p) w1 = (Ret (MatchedDN res, None), w2) ∧
    (Code res = ResultSuccess ∧ MatchedDN res = breq_DN req
     ∨ Code res = ResultInvalidCredentials ∧ MatchedDN res = "").
Proof.
  intros Hp.
  destruct (Bind_run_cases order p s req w Hp)
    as (res & asked & _ & Hcode & Hrun).
  eexists res, _, _. split; [exact Hrun|]. split; [|done].
  apply (Whoami_run p (mkSession (MatchedDN res))).
  cbn. apply lookup_insert_eq.
Qed.

Lemma Whoami_after_Bind_sample :
  ∃ res w1 w2,
    Bind sample_order (CtxSession 0) admin_bind fresh_world
      = (Ret (Some res, None), w1) ∧
    Whoami (CtxSession 0) w1 = (Ret (MatchedDN res, None), w2) ∧
    (Code res = ResultSuccess ∧ MatchedDN res = breq_DN admin_bind
     ∨ Code res = ResultInvalidCredentials ∧ MatchedDN res = "").
Proof.
  apply (Whoami_after_Bind sample_order 0 (mkSession "") fresh_world
           admin_bind).
  reflexivity.
Defined.

(** ** Connect, Disconnect and sessions that are not there *)

(** [Connect] always succeeds: it logs the peer, counts the request and
    hands out a session that was not in use, leaving the others alone.
    The new session is unauthenticated: a search on it is denied and
    [Whoami] returns the empty string.  The next [Connect] hands out a
    different session. *)
Theorem Connect_then_unauthenticated remoteAddr remoteAddr' order req w :
  ∃ p w1,
    Connect remoteAddr w = (Ret (Some (CtxSession p), None), w1) ∧
    sessions w !! p = None ∧
    (∀ q, q ≠ p → sessions w1 !! q = sessions w !! q) ∧
    trace w1 = trace w ++ [EvLog ("New session from " +:+ remoteAddr);
                           EvCounter "connect"] ∧
    performs (Search order (CtxSession p) req) w1
      (Some search_denied, None) [EvCounter "search"] ∧
    performs (Whoami (CtxSession p)) w1 ("", None)
      [EvCounter "whoami"; EvLog ("" +:+ ": Who am I")] ∧
    ∃ p' w2,
      Connect remoteAddr' w1 = (Ret (Some (CtxSession p'), None), w2) ∧
      p' ≠ p ∧
      identity w2 p = Some "" ∧ identity w2 p' = Some "".
Proof.
  destruct (Connect_new_session remoteAddr w) as (p & w1 & Hrun & Hnew & _).
  exists p, w1. split; [exact Hrun|].
  injection Hrun as Hp Hw1.
  assert (sessions w1 !! p = Some (mkSession "")) as Hcell.
  { rewrite <-Hw1, <-Hp. cbn. apply lookup_insert_eq. }
  split_and!.
  - done.
  - intros q Hq. rewrite <-Hw1. cbn. apply lookup_insert_ne. congruence.
  - rewrite <-Hw1. cbn. by rewrite <-app_assoc.
  - by apply (Search_run_denied _ _ (mkSession "")).
  - by apply (Whoami_run p (mkSession "")).
  - destruct (Connect_new_session remoteAddr' w1)
      as (p' & w2 & Hrun' & Hnew' & Hid' & Hother).
    exists p', w2. split; [exact Hrun'|].
    assert (p' ≠ p) as Hne by (intros ->; congruence).
    split; [done|]. split; [|done].
    rewrite Hother by done. unfold identity. by rewrite Hcell.
Qed.

(** [Disconnect] on a live session counts the request and logs the end
    of the session under its identity, and that is all: the session keeps
    its identity, and [Whoami] on it answers as before. *)
Theorem Disconnect_keeps_session p s w :
  sessions w !! p = Some s →
  ∃ w1,
    Disconnect (CtxSession p) w = (Ret (), w1) ∧
    sessions w1 = sessions w ∧
    trace w1 = trace w ++ [EvCounter "disconnect";
                           EvLog (dn s +:+ ": Session ended")] ∧
    performs (Whoami (CtxSession p)) w1 (dn s, None)
      [EvCounter "whoami"; EvLog (dn s +:+ ": Who am I")].
Proof.
  intros Hp. eexists. split.
  - unfold Disconnect, Println. mstep. erewrite run_load_dn by done.
    mstep. reflexivity.
  - cbn. split; [done|]. split; [by rewrite <-app_assoc|].
    by apply Whoami_run.
Qed.

Lemma Disconnect_keeps_session_sample :
  ∃ w1,
    Disconnect (CtxSession 0) sample_world = (Ret (), w1) ∧
    sessions w1 = sessions sample_world ∧
    trace w1 = trace sample_world
                 ++ [EvCounter "disconnect";
                     EvLog ("cn=admin,dc=x" +:+ ": Session ended")] ∧
    performs (Whoami (CtxSession 0)) w1 ("cn=admin,dc=x", None)
      [EvCounter "whoami"; EvLog ("cn=admin,dc=x" +:+ ": Who am I")].
Proof.
  apply (Disconnect_keeps_session 0 (mkSession "cn=admin,dc=x") sample_world).
  reflexivity.
Defined.

(** A [*session] context with no session behind it is not rejected with
    [errInvalidSessionType]: Bind, Search, Whoami and Disconnect count
    the request and then panic on the first access to the session,
    leaving the store as it was. *)
Theorem nil_session_panics order p w breq sreq :
  sessions w !! p = None →
  Bind order (CtxSession p) breq w =
    (Panic, mkWorld (sessions w)
              (trace w ++ [EvDebug ("bind as " +:+ breq_DN breq);
                           EvCounter "bind"])) ∧
  Search order (CtxSession p) sreq w =
    (Panic, mkWorld (sessions w) (trace w ++ [EvCounter "search"])) ∧
  Whoami (CtxSession p) w =
    (Panic, mkWorld (sessions w) (trace w ++ [EvCounter "whoami"])) ∧
  Disconnect (CtxSession p) w =
    (Panic, mkWorld (sessions w) (trace w ++ [EvCounter "disconnect"])).
Proof.
  intros Hp.
  unfold Bind, Search, Whoami, Disconnect, Println, store_dn, load_dn.
  split_and!; mstep; cbn; rewrite Hp; by rewrite <-?app_assoc.
Qed.

Lemma nil_session_panics_sample :
  Bind sample_order (CtxSession 7) admin_bind fresh_world =
    (Panic, mkWorld (sessions fresh_world)
              (trace fresh_world
                 ++ [EvDebug ("bind as " +:+ breq_DN admin_bind);
                     EvCounter "bind"])) ∧
  Search sample_order (CtxSession 7) everyone fresh_world =
    (Panic, mkWorld (sessions fresh_world)
              (trace fresh_world ++ [EvCounter "search"])) ∧
  Whoami (CtxSession 7) fresh_world =
    (Panic, mkWorld (sessions fresh_world)
              (trace fresh_world ++ [EvCounter "whoami"])) ∧
  Disconnect (CtxSession 7) fresh_world =
    (Panic, mkWorld (sessions fresh_world)
              (trace fresh_world ++ [EvCounter "disconnect"])).
Proof.
  apply (nil_session_panics sample_order 7 fresh_world admin_bind everyone).
  reflexivity.
Defined.

(** ** Every run of [Search] on a live session *)

(** Either every backend answers the filter, or the order splits at the
    first one that reports an error. *)
Lemma answers_split_or_all filter (order : list Backend) :
  (∃ done failing rest err,
      order = done ++ failing :: rest ∧
      Forall (answers_users filter) done ∧
      (GetUsers failing filter).2 = Some err)
  ∨ Forall (answers_users filter) order.
Proof.
  induction order as [|b bs IH]; [by right|].
  destruct ((GetUsers b filter).2) as [err|] eqn:Hb.
  - left. by exists [], b, bs, err.
  - destruct IH as [(done & failing & rest & err & -> & Hdone & Herr)|Hall].
    + left. exists (b :: done), failing, rest, err.
      split_and!; [done| |done]. by constructor.
    + right. by constructor.
Qed.

Lemma Search_run_observed order p s req w :
  sessions w !! p = Some s →
  dn s ≠ "" →
  ∃ out asked evs,
    asked `prefix_of` order ∧
    performs (Search order (CtxSession p) req) w out evs ∧
    evs = search_prologue (dn s) req
            ++ search_events (sreq_Filter req) asked ∧
    (asked = [] → order = []) ∧
    (out = (Some (search_success (aggregate (sreq_Filter req) order)), None)
       ∧ asked = order ∧ Forall (answers_users (sreq_Filter req)) order
     ∨ ∃ failing err,
         out = (None, Some err) ∧ failing ∈ order ∧
         (GetUsers failing (sreq_Filter req)).2 = Some err).
Proof.
  intros Hp Hdn.
  destruct (answers_split_or_all (sreq_Filter req) order)
    as [(done & failing & rest & err & -> & Hdone & Herr)|Hall].
  - eexists _, (done ++ [failing]), _. split_and!.
    + exists rest. by rewrite <-app_assoc.
    + by eapply Search_run_err.
    + done.
    + by destruct done.
    + right. exists failing, err. split_and!; [done| |done].
      apply elem_of_app. right. left.
  - eexists _, order, _. split_and!; [done| |done|done|].
    + by eapply Search_run_ok.
    + by left.
Qed.



(** A search on a live session increments the request counter once,
    under "search"; when the session is authenticated it observes one
    duration under ("search", name) for every backend it queries, failing
    or not, and it never calls [Authenticate].  On a context that is not
    a session nothing is counted. *)
Theorem Search_metrics order p s v w req :
  sessions w !! p = Some s →
  (∃ out evs,
     performs (Search order (CtxSession p) req) w out evs ∧
     counted evs = ["search"] ∧
     observed "search" evs = queried evs ∧
     observed "auth" evs = [] ∧
     consulted evs = []) ∧
  performs (Search order (CtxForeign v) req) w
    (None, Some errInvalidSessionType) [].
Proof.
  intros Hp. split.
  - destruct (decide (dn s = "")) as [Hdn|Hdn].
    + eexists _, _. split; [by eapply Search_run_denied|]. done.
    + destruct (Search_run_observed order p s req w Hp Hdn)
        as (out & asked & evs & _ & Hrun & -> & _ & _).
      eexists out, _. split; [exact Hrun|].
      destruct (observed_search_events (sreq_Filter req) asked)
        as (Hobs & Hobs' & Hcnt & _).
      rewrite !observed_app, counted_app, queried_app, consulted_app.
      rewrite Hobs, Hobs', Hcnt, queried_search_events.
      split_and!; try done.
      clear. induction asked as [|b bs IH]; [done|].
      unfold search_events. rewrite bind_cons, consulted_app. exact IH.
  - unfold performs. cbn. rewrite app_nil_r. by destruct w.
Qed.

Lemma Search_metrics_sample :
  (∃ out evs,
     performs (Search broken_order (CtxSession 0) everyone) sample_world
       out evs ∧
     counted evs = ["search"] ∧
     observed "search" evs = queried evs ∧
     observed "auth" evs = [] ∧
     consulted evs = []) ∧
  performs (Search broken_order (CtxForeign "net.Conn") everyone) sample_world
    (None, Some errInvalidSessionType) [].
Proof.
  apply (Search_metrics broken_order 0 (mkSession "cn=admin,dc=x")
           "net.Conn" sample_world everyone).
  reflexivity.
Defined.

(** ** What a search depends on *)

Lemma without_logs_app evs1 evs2 :
  without_logs (evs1 ++ evs2) = without_logs evs1 ++ without_logs evs2.
Proof. apply filter_app. Qed.

Lemma without_logs_search_prologue d req :
  without_logs (search_prologue d req) = [EvCounter "search"].
Proof. reflexivity. Qed.

(** The answer of a search on an authenticated session, and everything
    it does apart from its log line, depends on the filter and on the
    visiting order only: not on the base DN of the request, and not on
    who is bound to the session. *)
Theorem Search_depends_on_filter_only order p1 p2 s1 s2 w1 w2 req1 req2 :
  sessions w1 !! p1 = Some s1 →
  sessions w2 !! p2 = Some s2 →
  dn s1 ≠ "" →
  dn s2 ≠ "" →
  sreq_Filter req1 = sreq_Filter req2 →
  ∃ out evs1 evs2,
    performs (Search order (CtxSession p1) req1) w1 out evs1 ∧
    performs (Search order (CtxSession p2) req2) w2 out evs2 ∧
    without_logs evs1 = without_logs evs2.
Proof.
  intros Hp1 Hp2 Hdn1 Hdn2 Hfilter.
  destruct (answers_split_or_all (sreq_Filter req1) order)
    as [(done & failing & rest & err & -> & Hdone & Herr)|Hall].
  - eexists _, _, _. split; [by eapply Search_run_err|]. split.
    + eapply Search_run_err; [done|done| |]; by rewrite <-Hfilter.
    + by rewrite !without_logs_app, !without_logs_search_prologue, Hfilter.
  - eexists _, _, _. split; [by eapply Search_run_ok|]. split.
    + rewrite Hfilter. eapply Search_run_ok; [done|done|].
      by rewrite <-Hfilter.
    + by rewrite !without_logs_app, !without_logs_search_prologue, Hfilter.
Qed.

Lemma Search_depends_on_filter_only_sample :
  ∃ out evs1 evs2,
    performs (Search sample_order (CtxSession 0) everyone) two_sessions
      out evs1 ∧
    performs (Search sample_order (CtxSession 3) everyone_elsewhere)
      bob_world out evs2 ∧
    without_logs evs1 = without_logs evs2.
Proof.
  apply (Search_depends_on_filter_only sample_order 0 3
           (mkSession "cn=admin,dc=x") (mkSession "cn=bob,dc=x")
           two_sessions bob_world everyone everyone_elsewhere).
  - reflexivity.
  - reflexivity.
  - vm_compute. discriminate.
  - vm_compute. discriminate.
  - reflexivity.
Defined.

(** When every registered backend answers, two visiting orders of the
    registry give the same users: the two result lists are permutations
    of each other. *)
Theorem Search_results_permute proxy order1 order2 p s w req :
  range_order proxy order1 →
  range_order proxy order2 →
  sessions w !! p = Some s →
  dn s ≠ "" →
  (∀ name b, backends proxy !! name = Some b →
             (GetUsers b (sreq_Filter req)).2 = None) →
  ∃ results1 results2 w1 w2,
    Search order1 (CtxSession p) req w =
      (Ret (Some (search_success results1), None), w1) ∧
    Search order2 (CtxSession p) req w =
      (Ret (Some (search_success results2), None), w2) ∧
    results1 ≡ₚ results2.
Proof.
  intros Horder1 Horder2 Hp Hdn Hall.
  assert (∀ order, range_order proxy order →
                   Forall (answers_users (sreq_Filter req)) order) as Hok.
  { intros order Horder. apply Forall_forall. intros b Hb.
    apply (range_order_elem_of _ _ _ Horder) in Hb as [name Hname].
    by eapply Hall. }
  eexists _, _, _, _. split; [by eapply Search_run_ok; eauto|].
  split; [by eapply Search_run_ok; eauto|].
  unfold aggregate. apply bind_Permutation.
  unfold range_order in *. by rewrite Horder1, Horder2.
Qed.

Lemma Search_results_permute_sample :
  ∃ results1 results2 w1 w2,
    Search sample_order (CtxSession 0) everyone sample_world =
      (Ret (Some (search_success results1), None), w1) ∧
    Search [guestBackend; ldapBackend; fileBackend] (CtxSession 0) everyone
      sample_world =
      (Ret (Some (search_success results2), None), w2) ∧
    results1 ≡ₚ results2.
Proof.
  apply (Search_results_permute sample_proxy sample_order
           [guestBackend; ldapBackend; fileBackend] 0
           (mkSession "cn=admin,dc=x") sample_world everyone).
  - solve_range_order.
  - solve_range_order.
  - reflexivity.
  - vm_compute. discriminate.
  - apply (bool_decide_unpack
             (map_Forall (λ _ b, (GetUsers b (sreq_Filter everyone)).2 = None)
                (backends sample_proxy))).
    vm_compute. exact I.
Defined.

(** ** The conversion to the wire form *)

(** The order in which the runtime visits the attributes of a user does
    not show in the search result: every visiting order gives the map
    with the same keys, each bound to its values cast to bytes in their
    order, and a name that is not an attribute of the user is not a key
    of the result. *)
Theorem Search_attributes_order_irrelevant visit1 visit2
    (attrs : gmap string (list string)) :
  visit1 ≡ₚ map_to_list attrs →
  visit2 ≡ₚ map_to_list attrs →
  Search_attributes_range visit1 = Search_attributes_range visit2 ∧
  ∀ key,
    Search_attributes_range visit1 !! key
    = fmap (M := list) String.list_byte_of_string <$> attrs !! key.
Proof.
  intros Hvisit1 Hvisit2.
  rewrite (Search_attributes_range_any_order _ _ Hvisit1),
    (Search_attributes_range_any_order _ _ Hvisit2).
  split; [done|]. intros key. apply lookup_fmap.
Qed.

Lemma Search_attributes_order_irrelevant_sample :
  Search_attributes_range admin_visit = Search_attributes_range admin_visit' ∧
  ∀ key,
    Search_attributes_range admin_visit !! key
    = fmap (M := list) String.list_byte_of_string
        <$> user_Attributes admin_user !! key.
Proof.
  apply (Search_attributes_order_irrelevant admin_visit admin_visit'
           (user_Attributes admin_user)).
  - vm_compute. solve_Permutation.
  - vm_compute. solve_Permutation.
Defined.

(** The conversion loses nothing: casting the bytes of a search result
    back to strings gives the users the backend returned, in their order,
    whatever was collected before them. *)
Theorem Search_users_range_lossless searchResults users :
  unwire <$> Search_users_range searchResults users
  = (unwire <$> searchResults) ++ users.
Proof.
  rewrite Search_users_range_wire, fmap_app. f_equal.
  rewrite <-list_fmap_compose. rewrite <-(list_fmap_id users) at 2.
  apply list_fmap_ext. intros _ [d attrs] _. unfold unwire, wire_user.
  cbn. f_equal. rewrite <-map_fmap_compose.
  rewrite <-(map_fmap_id attrs) at 2.
  apply map_fmap_ext. intros key values _. cbn.
  rewrite <-list_fmap_compose. rewrite <-(list_fmap_id values) at 2.
  apply list_fmap_ext. intros _ value _. cbn.
  apply String.string_of_list_byte_of_string.
Qed.

(** ** Handlers in sequence *)

Lemma last_filter_unique_name (bs : list Backend) b :
  NoDup (Name <$> bs) →
  b ∈ bs →
  last (filter (λ x, Name x = Name b) bs) = Some b.
Proof.
  induction bs as [|a bs IH]; intros Hnd Hb.
  - by apply elem_of_nil in Hb.
  - cbn in Hnd. apply NoDup_cons in Hnd as [Ha Hnd].
    rewrite filter_cons. apply elem_of_cons in Hb as [->|Hb].
    + rewrite decide_True by done. rewrite last_cons.
      destruct (last (filter (λ x, Name x = Name a) bs)) as [y|] eqn:Hlast;
        [|done].
      apply last_Some in Hlast as [l' Hl'].
      assert (y ∈ filter (λ x, Name x = Name a) bs) as Hy.
      { rewrite Hl'. apply elem_of_app. right. left. }
      apply list_elem_of_filter in Hy as [Hname Hy].
      destruct Ha. rewrite <-Hname. by apply list_elem_of_fmap_2.
    + rewrite decide_False; [by apply IH|].
      intros Hname. destruct Ha. rewrite Hname.
      by apply list_elem_of_fmap_2.
Qed.

(** Registering backends with pairwise different names and then binding:
    when one of the registered backends accepts the credentials, the bind
    on a live session answers Success and binds the session, in whatever
    order the runtime visits the new registry and whatever was
    registered before. *)
Theorem AddBackend_then_Bind proxy bs b order p s w w0 req :
  NoDup (Name <$> bs) →
  b ∈ bs →
  accepts req b = true →
  sessions w !! p = Some s →
  ∃ proxy' w0',
    AddBackend proxy bs w0 = (Ret proxy', w0') ∧
    backends proxy' !! Name b = Some b ∧
    (range_order proxy' order →
     ∃ w',
       Bind order (CtxSession p) req w =
         (Ret (Some (mkBaseResponse ResultSuccess (breq_DN req)), None), w') ∧
       identity w' p = Some (breq_DN req)).
Proof.
  intros Hnd Hb Hacc Hp. eexists _, _. split; [reflexivity|].
  assert (AddBackend_range (backends proxy) bs !! Name b = Some b) as Hreg.
  { by rewrite AddBackend_range_lookup, last_filter_unique_name. }
  split; [exact Hreg|]. intros Horder.
  destruct (first_true_split (accepts req) order)
    as (tried & winner & rest & -> & Htried & Hwin).
  { exists b. split; [|done]. eapply range_order_elem_of; eauto. }
  eexists. split; [by eapply Bind_run_hit|]. apply identity_insert.
Qed.

Lemma AddBackend_then_Bind_sample :
  ∃ proxy' w0',
    AddBackend NewLdapProxy [ldapBackend; fileBackend; guestBackend]
      (mkWorld ∅ []) = (Ret proxy', w0') ∧
    backends proxy' !! Name ldapBackend = Some ldapBackend ∧
    range_order proxy' sample_order ∧
    ∃ w',
      Bind sample_order (CtxSession 0) admin_bind fresh_world =
        (Ret (Some (mkBaseResponse ResultSuccess (breq_DN admin_bind)), None),
         w') ∧
      identity w' 0 = Some (breq_DN admin_bind).
Proof.
  destruct (AddBackend_then_Bind NewLdapProxy
              [ldapBackend; fileBackend; guestBackend] ldapBackend
              sample_order 0 (mkSession "") fresh_world (mkWorld ∅ [])
              admin_bind)
    as (proxy' & w0' & Hadd & Hreg & Hbind).
  - apply (bool_decide_unpack
             (NoDup (Name <$> [ldapBackend; fileBackend; guestBackend]))).
    vm_compute. exact I.
  - left.
  - vm_compute. reflexivity.
  - reflexivity.
  - assert (range_order proxy' sample_order) as Horder.
    { injection Hadd as <- _. solve_range_order. }
    exists proxy', w0'. split; [exact Hadd|]. split; [exact Hreg|].
    split; [exact Horder|]. by apply Hbind.
Defined.

(** The gate of [Search] after a bind on the same live session: the
    search is denied exactly when the bind left the MatchedDN of its
    response empty, that is after a failed bind (also one that follows a
    successful one) and after a successful bind with the empty [dn];
    otherwise the search reaches the backends. *)
Theorem Search_gate_after_Bind order order' p s w breq sreq :
  sessions w !! p = Some s →
  ∃ res w1 out evs,
    Bind order (CtxSession p) breq w = (Ret (Some res, None), w1) ∧
    performs (Search order' (CtxSession p) sreq) w1 out evs ∧
    (MatchedDN res = "" → out = (Some search_denied, None) ∧ queried evs = []) ∧
    (MatchedDN res ≠ "" →
     Code res = ResultSuccess ∧
     out ≠ (Some search_denied, None) ∧
     ∃ asked, asked `prefix_of` order' ∧ queried evs = Name <$> asked ∧
              (order' ≠ [] → asked ≠ [])).
Proof.
  intros Hp.
  destruct (Bind_run_cases order p s breq w Hp)
    as (res & asked & _ & Hcode & Hrun).
  set (w1 := mkWorld (<[p := mkSession (MatchedDN res)]> (sessions w)) _)
    in Hrun.
  assert (sessions w1 !! p = Some (mkSession (MatchedDN res))) as Hp1
    by apply lookup_insert_eq.
  destruct (decide (MatchedDN res = "")) as [Hempty|Hbound].
  - eexists res, w1, _, _. split; [exact Hrun|].
    split; [by eapply Search_run_denied|]. split; [done|]. by intros [].
  - destruct (Search_run_observed order' p _ sreq w1 Hp1 Hbound)
      as (out & asked' & evs & Hpre & Hsearch & -> & Hnil & Hcases).
    eexists res, w1, out, _. split; [exact Hrun|]. split; [exact Hsearch|].
    split; [done|]. intros _. split_and!.
    + destruct Hcode as [[? _]|[_ ?]]; done.
    + destruct Hcases as [(-> & _)|(? & ? & -> & _)]; discriminate.
    + exists asked'. split; [done|]. split.
      * by rewrite queried_app, queried_search_prologue,
          queried_search_events.
      * intros Hne Hasked. by apply Hne, Hnil.
Qed.

Lemma Search_gate_after_Bind_sample :
  ∃ res w1 out evs,
    Bind sample_order (CtxSession 0) wrong_bind sample_world
      = (Ret (Some res, None), w1) ∧
    performs (Search sample_order (CtxSession 0) everyone) w1 out evs ∧
    (MatchedDN res = "" → out = (Some search_denied, None) ∧ queried evs = []) ∧
    (MatchedDN res ≠ "" →
     Code res = ResultSuccess ∧
     out ≠ (Some search_denied, None) ∧
     ∃ asked, asked `prefix_of` sample_order ∧ queried evs = Name <$> asked ∧
              (sample_order ≠ [] → asked ≠ [])).
Proof.
  apply (Search_gate_after_Bind sample_order sample_order 0
           (mkSession "cn=admin,dc=x") sample_world wrong_bind everyone).
  reflexivity.
Defined.
